(** * Structural units of mol-model: a shallow embedding of [Unit]
    (mol-model/structure/structure/unit.ts, bundled here in
    src/mol-plugin/ui/state.tsx, lines 69-573).

    JavaScript objects whose identity matters (units, their mutable
    property bags, coordinate stores) carry an explicit reference; the
    property bags live in a heap threaded through a small state monad. *)

From Stdlib Require Import List Bool Arith Lia ZArith QArith String.
Import ListNotations.
Local Open Scope nat_scope.

(** ** JavaScript numbers and strict equality *)

(** A JS number: finite values are rationals (every finite double is one),
    plus the two infinities and NaN.  Only [===] and, for the affine
    transform of the spec, arithmetic on finite values are used. *)
Inductive number :=
| Finite (q : Q)
| Infinity (positive : bool)
| NaN.

(** [a === b] on numbers: NaN is equal to nothing, [0 === -0]. *)
Definition number_strict_eq (a b : number) : bool :=
  match a, b with
  | Finite p, Finite q => Qeq_bool p q
  | Infinity s, Infinity t => Bool.eqb s t
  | _, _ => false
  end.

(** A value read from a typed array: a number, or [undefined] out of range. *)
Inductive jsval := JNum (n : number) | JUndefined.

Definition js_strict_eq (a b : jsval) : bool :=
  match a, b with
  | JNum x, JNum y => number_strict_eq x y
  | JUndefined, JUndefined => true
  | _, _ => false
  end.

(** [arr[i]] *)
Definition at_index (arr : list number) (i : nat) : jsval :=
  match nth_error arr i with Some v => JNum v | None => JUndefined end.

(** ** Symmetry operators (mol-math, outside this file's sources)

    Modelled from the spec: an operator is a name and an affine 4x4 matrix
    (column-major, as Mat4); composing extends an existing operator with an
    additional transform, i.e. applies the composed matrix (§4.1). *)
Record SymmetryOperator := {
  op_name : string;
  op_matrix : list Q  (* 16 entries, column-major *)
}.

Definition mat4_at (m : list Q) (i : nat) : Q := nth i m 0%Q.

(** [out = a * b], column-major: out[c*4+r] = sum_k a[k*4+r] * b[c*4+k]. *)
Definition Mat4_mul (a b : list Q) : list Q :=
  map (fun idx =>
         let c := (idx / 4)%nat in let r := (idx mod 4)%nat in
         (mat4_at a r * mat4_at b (c * 4)%nat
          + mat4_at a (4 + r)%nat * mat4_at b (c * 4 + 1)%nat
          + mat4_at a (8 + r)%nat * mat4_at b (c * 4 + 2)%nat
          + mat4_at a (12 + r)%nat * mat4_at b (c * 4 + 3)%nat)%Q)
      (seq 0 16)%nat.

(** Modelled from the spec: [SymmetryOperator.compose(first, second)]
    applies [first], then [second]. *)
Definition SymmetryOperator_compose (first second : SymmetryOperator)
  : SymmetryOperator :=
  {| op_name := op_name second;
     op_matrix := Mat4_mul (op_matrix second) (op_matrix first) |}.

(** Modelled from the spec: the world-space position of a point under an
    affine operator (finite coordinates; any non-finite input gives NaN). *)
Definition transform_point (op : SymmetryOperator) (x y z : number)
  : number * number * number :=
  match x, y, z with
  | Finite a, Finite b, Finite c =>
      let m := op_matrix op in
      let row r := Finite (mat4_at m r * a + mat4_at m (4 + r)%nat * b
                           + mat4_at m (8 + r)%nat * c + mat4_at m (12 + r)%nat)%Q in
      (row 0%nat, row 1%nat, row 2%nat)
  | _, _, _ => (NaN, NaN, NaN)
  end.

(** ** Models and coordinate stores *)

(** A coordinate store ([model.atomicConformation],
    [model.coarseConformation.spheres], ...): its object reference, its
    [id] field and its [x], [y], [z] arrays. *)
Record Conformation := {
  conf_ref : nat;
  conf_id : nat;
  cx : list number;
  cy : list number;
  cz : list number
}.

(** The parts of a [Model] read by [Unit]; [indexPairBonds] is the value of
    [IndexPairBonds.Provider.get(model)]: the reference of the explicit
    bond-index annotation, if the model carries one. *)
Record Model := {
  model_ref : nat;
  atomicConformation : Conformation;
  coarseSpheres : Conformation;
  coarseGaussians : Conformation;
  indexPairBonds : option nat
}.

(** Radius accessor handed to [createMapping]: none for atomic units. *)
Inductive RadiusFunc :=
| SphereRadiusFunc (model : nat)   (* getSphereRadiusFunc(model) *)
| GaussianRadiusFunc.              (* getGaussianRadiusFunc(model) *)

(** [SymmetryOperator.ArrayMapping]: operator, coordinate store, radius. *)
Record ArrayMapping := {
  operator : SymmetryOperator;
  coordinates : Conformation;
  r : option RadiusFunc
}.

Definition createMapping (op : SymmetryOperator) (coords : Conformation)
  (radius : option RadiusFunc) : ArrayMapping :=
  {| operator := op; coordinates := coords; r := radius |}.

(** Modelled from the spec: the transformed position of index [i] under a
    mapping (an [undefined] read becomes NaN, as in JS arithmetic). *)
Definition mapping_position (c : ArrayMapping) (i : nat)
  : number * number * number :=
  let num v := match v with JNum n => n | JUndefined => NaN end in
  transform_point (operator c)
    (num (at_index (cx (coordinates c)) i))
    (num (at_index (cy (coordinates c)) i))
    (num (at_index (cz (coordinates c)) i)).

(** ** Units *)

Inductive Kind := Atomic | Spheres | Gaussians.

Definition kind_eqb (a b : Kind) : bool :=
  match a, b with
  | Atomic, Atomic | Spheres, Spheres | Gaussians, Gaussians => true
  | _, _ => false
  end.

(** A unit object: [u_self] is its object reference, [u_props] the
    reference of its private, mutable property bag ([this.props]).
    [residueIndex], [chainIndex], [coarseElements] and [coarseConformation]
    are read off [model] and [kind] and are not stored. *)
Record Unit := {
  u_self : nat;
  kind : Kind;
  id : nat;
  invariantId : nat;
  chainGroupId : nat;
  traits : nat;
  elements : list nat;
  model : Model;
  conformation : ArrayMapping;
  u_props : nat
}.

(** [getCoarseConformation(kind, model)] *)
Definition getCoarseConformation (k : Kind) (m : Model) : Conformation :=
  match k with Spheres => coarseSpheres m | _ => coarseGaussians m end.

(** The store a unit reads its own coordinates from:
    [this.model.atomicConformation] or [this.getCoarseConformation()]. *)
Definition unit_store (u : Unit) : Conformation :=
  match kind u with
  | Atomic => atomicConformation (model u)
  | k => getCoarseConformation k (model u)
  end.

(** [Unit.isSameConformation(a, model)], lines 559-570. *)
Fixpoint isSameConformation_loop (xs : list nat) (a b : Conformation) : bool :=
  match xs with
  | [] => true
  | u :: rest =>
      if negb (js_strict_eq (at_index (cx a) u) (at_index (cx b) u))
         || negb (js_strict_eq (at_index (cy a) u) (at_index (cy b) u))
         || negb (js_strict_eq (at_index (cz a) u) (at_index (cz b) u))
      then false
      else isSameConformation_loop rest a b
  end.

Definition isSameConformation (a : Unit) (m : Model) : bool :=
  isSameConformation_loop (elements a) (coordinates (conformation a))
    (atomicConformation m).

(** The reading of the spec (§8): the transformed coordinates of every
    element under the unit's mapping equal the raw coordinates of [m]. *)
Definition spec_isSameConformation (a : Unit) (m : Model) : bool :=
  forallb (fun e =>
             let '(x, y, z) := mapping_position (conformation a) e in
             js_strict_eq (JNum x) (at_index (cx (atomicConformation m)) e)
             && js_strict_eq (JNum y) (at_index (cy (atomicConformation m)) e)
             && js_strict_eq (JNum z) (at_index (cz (atomicConformation m)) e))
          (elements a).

(** ** Collaborators outside this file's sources

    The geometry, bond perception, ring, polymer and hashing helpers are
    called by [Unit] but implemented elsewhere (mol-math, mol-data and
    sibling files of unit.ts).  They are kept abstract: every result below
    holds for any implementation of them. *)
Class Externals : Type := {
  Boundary : Type;
  Lookup3D : Type;
  PrincipalAxes : Type;
  IntraUnitBonds : Type;
  UnitRings : Type;
  Segment : Type;
  (** [getBoundary({ x, y, z, indices })] *)
  getBoundary : Conformation -> list nat -> Boundary;
  (** [tryAdjustBoundary({ x, y, z, indices }, boundary)]: [undefined] when
      the old boundary cannot be adjusted. *)
  tryAdjustBoundary : Conformation -> list nat -> Boundary -> option Boundary;
  (** [GridLookup3D({ x, y, z, indices }, boundary)] *)
  GridLookup3D : Conformation -> list nat -> Boundary -> Lookup3D;
  getPrincipalAxes : Unit -> PrincipalAxes;
  computeIntraUnitBonds : Unit -> IntraUnitBonds;
  (** [bonds.props?.canRemap], read as a truth value *)
  bonds_canRemap : IntraUnitBonds -> bool;
  UnitRings_create : Unit -> UnitRings;
  getAtomicPolymerElements : Unit -> list nat;
  getCoarsePolymerElements : Unit -> list nat;
  getAtomicGapElements : Unit -> list nat;
  getCoarseGapElements : Unit -> list nat;
  getNucleotideElements : Unit -> list nat;
  getProteinElements : Unit -> list nat;
  (** the segments yielded by
      [Segmentation.transientSegments(model.atomicHierarchy.residueAtomSegments, elements)] *)
  transientSegments : Model -> list nat -> list Segment;
  hash2 : Z -> Z -> Z;
  SortedArray_hashCode : list nat -> Z;
  hashFnv32a : list nat -> Z
}.

(** The names of the lazily computed properties of a unit. *)
Inductive PropName :=
| PBoundary | PLookup3d | PPrincipalAxes | PPolymerElements | PGapElements
| PBonds | PRings | PNucleotideElements | PProteinElements | PResidueCount.

(** Equality by value of two index sequences. *)
Fixpoint nat_list_eqb (a b : list nat) : bool :=
  match a, b with
  | [], [] => true
  | x :: a', y :: b' => Nat.eqb x y && nat_list_eqb a' b'
  | _, _ => false
  end.

(** A small state monad. *)
Definition StateM (S A : Type) : Type := S -> A * S.

Definition ret {S A : Type} (a : A) : StateM S A := fun s => (a, s).

Definition bind {S A B : Type} (m : StateM S A) (f : A -> StateM S B)
  : StateM S B :=
  fun s => let (a, s') := m s in f a s'.

Notation "x <- m ;; k" := (bind m (fun x => k))
  (at level 61, m at next level, right associativity).

Section UnitModel.
Context {X : Externals}.

(** [AtomicProperties] (which extends [BaseProperties]); coarse units use
    the same bag and never set the atomic-only fields. *)
Record Props := {
  p_boundary : option Boundary;
  p_lookup3d : option Lookup3D;
  p_principalAxes : option PrincipalAxes;
  p_polymerElements : option (list nat);
  p_gapElements : option (list nat);
  p_bonds : option IntraUnitBonds;
  p_rings : option UnitRings;
  p_nucleotideElements : option (list nat);
  p_proteinElements : option (list nat);
  p_residueCount : option nat
}.

(** [{}]: [AtomicProperties()] and [CoarseProperties()] *)
Definition emptyProps : Props :=
  Build_Props None None None None None None None None None None.

(** [this.props.f = v] for each field [f]. *)
Definition set_boundary v pr := Build_Props (Some v) (p_lookup3d pr) (p_principalAxes pr) (p_polymerElements pr) (p_gapElements pr) (p_bonds pr) (p_rings pr) (p_nucleotideElements pr) (p_proteinElements pr) (p_residueCount pr).
Definition set_lookup3d v pr := Build_Props (p_boundary pr) (Some v) (p_principalAxes pr) (p_polymerElements pr) (p_gapElements pr) (p_bonds pr) (p_rings pr) (p_nucleotideElements pr) (p_proteinElements pr) (p_residueCount pr).
Definition set_principalAxes v pr := Build_Props (p_boundary pr) (p_lookup3d pr) (Some v) (p_polymerElements pr) (p_gapElements pr) (p_bonds pr) (p_rings pr) (p_nucleotideElements pr) (p_proteinElements pr) (p_residueCount pr).
Definition set_polymerElements v pr := Build_Props (p_boundary pr) (p_lookup3d pr) (p_principalAxes pr) (Some v) (p_gapElements pr) (p_bonds pr) (p_rings pr) (p_nucleotideElements pr) (p_proteinElements pr) (p_residueCount pr).
Definition set_gapElements v pr := Build_Props (p_boundary pr) (p_lookup3d pr) (p_principalAxes pr) (p_polymerElements pr) (Some v) (p_bonds pr) (p_rings pr) (p_nucleotideElements pr) (p_proteinElements pr) (p_residueCount pr).
Definition set_bonds v pr := Build_Props (p_boundary pr) (p_lookup3d pr) (p_principalAxes pr) (p_polymerElements pr) (p_gapElements pr) (Some v) (p_rings pr) (p_nucleotideElements pr) (p_proteinElements pr) (p_residueCount pr).
Definition set_rings v pr := Build_Props (p_boundary pr) (p_lookup3d pr) (p_principalAxes pr) (p_polymerElements pr) (p_gapElements pr) (p_bonds pr) (Some v) (p_nucleotideElements pr) (p_proteinElements pr) (p_residueCount pr).
Definition set_nucleotideElements v pr := Build_Props (p_boundary pr) (p_lookup3d pr) (p_principalAxes pr) (p_polymerElements pr) (p_gapElements pr) (p_bonds pr) (p_rings pr) (Some v) (p_proteinElements pr) (p_residueCount pr).
Definition set_proteinElements v pr := Build_Props (p_boundary pr) (p_lookup3d pr) (p_principalAxes pr) (p_polymerElements pr) (p_gapElements pr) (p_bonds pr) (p_rings pr) (p_nucleotideElements pr) (Some v) (p_residueCount pr).
Definition set_residueCount v pr := Build_Props (p_boundary pr) (p_lookup3d pr) (p_principalAxes pr) (p_polymerElements pr) (p_gapElements pr) (p_bonds pr) (p_rings pr) (p_nucleotideElements pr) (p_proteinElements pr) (Some v).

(** A cached property value, tagged by its property. *)
Inductive PropVal :=
| VBoundary (b : Boundary)
| VLookup3d (l : Lookup3D)
| VPrincipalAxes (a : PrincipalAxes)
| VPolymerElements (e : list nat)
| VGapElements (e : list nat)
| VBonds (b : IntraUnitBonds)
| VRings (r : UnitRings)
| VNucleotideElements (e : list nat)
| VProteinElements (e : list nat)
| VResidueCount (n : nat).

(** The cached value of property [p] in a bag, if present. *)
Definition prop_of (p : PropName) (pr : Props) : option PropVal :=
  match p with
  | PBoundary => option_map VBoundary (p_boundary pr)
  | PLookup3d => option_map VLookup3d (p_lookup3d pr)
  | PPrincipalAxes => option_map VPrincipalAxes (p_principalAxes pr)
  | PPolymerElements => option_map VPolymerElements (p_polymerElements pr)
  | PGapElements => option_map VGapElements (p_gapElements pr)
  | PBonds => option_map VBonds (p_bonds pr)
  | PRings => option_map VRings (p_rings pr)
  | PNucleotideElements => option_map VNucleotideElements (p_nucleotideElements pr)
  | PProteinElements => option_map VProteinElements (p_proteinElements pr)
  | PResidueCount => option_map VResidueCount (p_residueCount pr)
  end.

(** The program state: the heap of property bags, the next free object
    reference, the shared bond cache and the log of the expensive
    computations that ran (the computation-count probe of the spec). *)
Record State := {
  heap : nat -> option Props;
  next : nat;
  bondCache : list (nat * list nat * IntraUnitBonds);
  log : list PropName
}.

Definition M (A : Type) : Type := StateM State A.

(** [this.props] of a unit whose bag is [pr]. *)
Definition view (s : State) (pr : nat) : Props :=
  match heap s pr with Some p => p | None => emptyProps end.

Definition load (pr : nat) : M Props := fun s => (view s pr, s).

(** An assignment to one field of the bag [pr]. *)
Definition modify_props (pr : nat) (f : Props -> Props) : M unit :=
  fun s => (tt, {| heap := fun q => if Nat.eqb q pr then Some (f (view s pr)) else heap s q;
                   next := next s; bondCache := bondCache s; log := log s |}).

(** A new property bag. *)
Definition alloc (p : Props) : M nat :=
  fun s => (next s, {| heap := fun q => if Nat.eqb q (next s) then Some p else heap s q;
                       next := S (next s); bondCache := bondCache s; log := log s |}).

(** A new unit object. *)
Definition fresh_object : M nat :=
  fun s => (next s, {| heap := heap s; next := S (next s);
                       bondCache := bondCache s; log := log s |}).

Definition record_computation (p : PropName) : M unit :=
  fun s => (tt, {| heap := heap s; next := next s;
                   bondCache := bondCache s; log := log s ++ [p] |}).

(** ** The shared bond cache

    Modelled from the spec: [ElementSetIntraBondCache] (its source is not
    part of this file's sources).  [ElementSetIntraBondCache.get(model)] is
    the cache of one model; [get(elements)] returns the graph stored for an
    element set equal by value to [elements] (the hash code is only a
    pre-filter), [set(elements, bonds)] stores one (§4.4). *)
Fixpoint bondCache_find (entries : list (nat * list nat * IntraUnitBonds))
  (m : nat) (els : list nat) : option IntraUnitBonds :=
  match entries with
  | [] => None
  | (m', els', b) :: rest =>
      if Nat.eqb m m' && nat_list_eqb els els' then Some b
      else bondCache_find rest m els
  end.

Definition bondCache_get (m : Model) (els : list nat) : M (option IntraUnitBonds) :=
  fun s => (bondCache_find (bondCache s) (model_ref m) els, s).

Definition bondCache_set (m : Model) (els : list nat) (b : IntraUnitBonds) : M unit :=
  fun s => (tt, {| heap := heap s; next := next s;
                   bondCache := (model_ref m, els, b) :: bondCache s; log := log s |}).

(** ** Lazily computed properties (lines 296-371 and 448-480)

    Every getter has the shape
    [if (this.props.f) return this.props.f; this.props.f = compute(); return this.props.f;]
    ([residueCount] tests [!== undefined]; every other cached value is an
    object, so truthiness and presence coincide). *)
Definition memo {A : Type} (get : Props -> option A) (set : A -> Props -> Props)
  (u : Unit) (compute : M A) : M A :=
  pr <- load (u_props u);;
  match get pr with
  | Some v => ret v
  | None =>
      v <- compute;;
      _ <- modify_props (u_props u) (set v);;
      ret v
  end.

Definition get_boundary (u : Unit) : M Boundary :=
  memo p_boundary set_boundary u
    (_ <- record_computation PBoundary;;
     ret (getBoundary (unit_store u) (elements u))).

Definition get_lookup3d (u : Unit) : M Lookup3D :=
  memo p_lookup3d set_lookup3d u
    (b <- get_boundary u;;
     _ <- record_computation PLookup3d;;
     ret (GridLookup3D (unit_store u) (elements u) b)).

Definition get_principalAxes (u : Unit) : M PrincipalAxes :=
  memo p_principalAxes set_principalAxes u
    (_ <- record_computation PPrincipalAxes;; ret (getPrincipalAxes u)).

(** [Atomic.bonds]: the unit's own bag first, then the model's shared cache,
    and only then [computeIntraUnitBonds], whose result is stored in both. *)
Definition get_bonds (u : Unit) : M IntraUnitBonds :=
  memo p_bonds set_bonds u
    (cached <- bondCache_get (model u) (elements u);;
     match cached with
     | Some b => ret b
     | None =>
         _ <- record_computation PBonds;;
         let b := computeIntraUnitBonds u in
         _ <- bondCache_set (model u) (elements u) b;;
         ret b
     end).

Definition get_rings (u : Unit) : M UnitRings :=
  memo p_rings set_rings u
    (_ <- record_computation PRings;; ret (UnitRings_create u)).

Definition get_polymerElements (u : Unit) : M (list nat) :=
  memo p_polymerElements set_polymerElements u
    (_ <- record_computation PPolymerElements;;
     ret (match kind u with
          | Atomic => getAtomicPolymerElements u
          | _ => getCoarsePolymerElements u
          end)).

Definition get_gapElements (u : Unit) : M (list nat) :=
  memo p_gapElements set_gapElements u
    (_ <- record_computation PGapElements;;
     ret (match kind u with
          | Atomic => getAtomicGapElements u
          | _ => getCoarseGapElements u
          end)).

Definition get_nucleotideElements (u : Unit) : M (list nat) :=
  memo p_nucleotideElements set_nucleotideElements u
    (_ <- record_computation PNucleotideElements;; ret (getNucleotideElements u)).

Definition get_proteinElements (u : Unit) : M (list nat) :=
  memo p_proteinElements set_proteinElements u
    (_ <- record_computation PProteinElements;; ret (getProteinElements u)).

(** [while (residueIt.hasNext) { residueIt.move(); residueCount += 1; }] *)
Fixpoint count_segments (it : list Segment) (residueCount : nat) : nat :=
  match it with
  | [] => residueCount
  | _ :: rest => count_segments rest (residueCount + 1)
  end.

Definition get_residueCount (u : Unit) : M nat :=
  memo p_residueCount set_residueCount u
    (_ <- record_computation PResidueCount;;
     ret (count_segments (transientSegments (model u) (elements u)) 0)).

(** Reading property [p] of [u]; [None] is [undefined], the value of an
    atomic-only property on a coarse unit. *)
Definition read (p : PropName) (u : Unit) : M (option PropVal) :=
  let atomic_only {A} (g : M A) (tag : A -> PropVal) : M (option PropVal) :=
    match kind u with
    | Atomic => v <- g;; ret (Some (tag v))
    | _ => ret None
    end in
  match p with
  | PBoundary => v <- get_boundary u;; ret (Some (VBoundary v))
  | PLookup3d => v <- get_lookup3d u;; ret (Some (VLookup3d v))
  | PPrincipalAxes => v <- get_principalAxes u;; ret (Some (VPrincipalAxes v))
  | PPolymerElements => v <- get_polymerElements u;; ret (Some (VPolymerElements v))
  | PGapElements => v <- get_gapElements u;; ret (Some (VGapElements v))
  | PBonds => atomic_only (get_bonds u) VBonds
  | PRings => atomic_only (get_rings u) VRings
  | PNucleotideElements => atomic_only (get_nucleotideElements u) VNucleotideElements
  | PProteinElements => atomic_only (get_proteinElements u) VProteinElements
  | PResidueCount => atomic_only (get_residueCount u) VResidueCount
  end.


(** ** Creating and deriving units *)

(** [new Atomic(...)] / [createCoarse(...)]: a new unit object. *)
Definition new_unit (k : Kind) (id' invariantId' chainGroupId' traits' : nat)
  (m : Model) (els : list nat) (c : ArrayMapping) (pr : nat) : M Unit :=
  self <- fresh_object;;
  ret {| u_self := self; kind := k; id := id'; invariantId := invariantId';
         chainGroupId := chainGroupId'; traits := traits'; elements := els;
         model := m; conformation := c; u_props := pr |}.

(** [Unit.create], lines 109-115; [AtomicProperties(props)] and
    [CoarseProperties(props)] copy the given bag into a new one. *)
Definition create (id' invariantId' chainGroupId' traits' : nat) (k : Kind)
  (m : Model) (op : SymmetryOperator) (els : list nat) (props : option Props)
  : M Unit :=
  let c := match k with
           | Atomic => createMapping op (atomicConformation m) None
           | Spheres => createMapping op (coarseSpheres m) (Some (SphereRadiusFunc (model_ref m)))
           | Gaussians => createMapping op (coarseGaussians m) (Some GaussianRadiusFunc)
           end in
  pr <- alloc (match props with Some p => p | None => emptyProps end);;
  new_unit k id' invariantId' chainGroupId' traits' m els c pr.

(** [getChild(elements)], lines 273-276 and 421-424. *)
Definition getChild (u : Unit) (els : list nat) : M Unit :=
  if Nat.eqb (List.length els) (List.length (elements u)) then ret u
  else
    pr <- alloc emptyProps;;
    new_unit (kind u) (id u) (invariantId u) (chainGroupId u) (traits u)
      (model u) els (conformation u) pr.

(** [applyOperator(id, operator, dontCompose)], lines 278-281 and 426-431:
    the new unit is handed [this.props] itself. *)
Definition applyOperator (u : Unit) (id' : nat) (op : SymmetryOperator)
  (dontCompose : bool) : M Unit :=
  let op' := if dontCompose then op
             else SymmetryOperator_compose (operator (conformation u)) op in
  new_unit (kind u) id' (invariantId u) (chainGroupId u) (traits u) (model u)
    (elements u) (createMapping op' (unit_store u) (r (conformation u)))
    (u_props u).

(** [tryRemapBonds(a, old, model)], lines 539-557. *)
Definition tryRemapBonds (a : Unit) (old : option IntraUnitBonds) (m : Model)
  : option IntraUnitBonds :=
  match old with
  | None => None
  | Some o =>
      if Nat.eqb (conf_id (atomicConformation (model a))) (conf_id (atomicConformation m))
      then Some o
      else
        match indexPairBonds (model a) with
        | Some oldIndex =>
            match indexPairBonds m with
            | None => Some o
            | Some newIndex => if Nat.eqb oldIndex newIndex then Some o else None
            end
        | None =>
            if bonds_canRemap o then Some o
            else if isSameConformation a m then Some o else None
        end
  end.

(** [{ ...this.props, bonds, boundary, lookup3d: undefined, principalAxes: undefined }] *)
Definition remapped_props (pr : Props) (bonds : option IntraUnitBonds)
  (boundary : option Boundary) : Props :=
  Build_Props boundary None None (p_polymerElements pr) (p_gapElements pr) bonds
    (p_rings pr) (p_nucleotideElements pr) (p_proteinElements pr) (p_residueCount pr).

(** [remapModel(model)], lines 283-294 (atomic) and 433-446 (coarse). *)
Definition remapModel (u : Unit) (m : Model) : M Unit :=
  match kind u with
  | Atomic =>
      pr <- load (u_props u);;
      let boundary :=
        match p_boundary pr with
        | Some b => if negb (isSameConformation u m)
                    then tryAdjustBoundary (atomicConformation m) (elements u) b
                    else Some b
        | None => None
        end in
      let props := remapped_props pr (tryRemapBonds u (p_bonds pr) m) boundary in
      let c := if negb (Nat.eqb (conf_ref (atomicConformation (model u)))
                                (conf_ref (atomicConformation m)))
               then createMapping (operator (conformation u)) (atomicConformation m) None
               else conformation u in
      ref <- alloc props;;
      new_unit Atomic (id u) (invariantId u) (chainGroupId u) (traits u) m
        (elements u) c ref
  | k =>
      let coarseConformation := getCoarseConformation k (model u) in
      let modelCoarseConformation := getCoarseConformation k m in
      pr <- load (u_props u);;
      let boundary :=
        match p_boundary pr with
        | Some b => tryAdjustBoundary modelCoarseConformation (elements u) b
        | None => None
        end in
      let props := remapped_props pr (p_bonds pr) boundary in
      let c := if negb (Nat.eqb (conf_ref coarseConformation)
                                (conf_ref modelCoarseConformation))
               then createMapping (operator (conformation u)) modelCoarseConformation None
               else conformation u in
      ref <- alloc props;;
      new_unit k (id u) (invariantId u) (chainGroupId u) (traits u) m
        (elements u) c ref
  end.

(** ** Symmetry groups (lines 117-176) *)

(** [unitIndexMap] is built lazily from [units] and is not used below. *)
Record SymmetryGroup := {
  sg_elements : list nat;
  sg_units : list Unit;
  hashCode : Z;
  transformHash : Z
}.

(** [Unit.hashUnit(u)], lines 182-184. *)
Definition hashUnit (u : Unit) : Z :=
  hash2 (Z.of_nat (invariantId u)) (SortedArray_hashCode (elements u)).

(** [getTransformHash(units)] *)
Definition getTransformHash (units : list Unit) : Z :=
  hashFnv32a (List.map id units).

(** [SymmetryGroup(units)]; an empty [units] fails on [units[0].elements]. *)
Definition mkSymmetryGroup (units : list Unit) : option SymmetryGroup :=
  match units with
  | [] => None
  | u0 :: _ =>
      Some {| sg_elements := elements u0; sg_units := units;
              hashCode := hashUnit u0; transformHash := getTransformHash units |}
  end.

(** Modelled from the spec: [SortedArray.areEqual] (mol-data, not part of
    this file's sources) is full ordered sequence equality (§3). *)
Definition SortedArray_areEqual (a b : list nat) : bool := nat_list_eqb a b.

(** [SymmetryGroup.areInvariantElementsEqual(a, b)], lines 164-167. *)
Definition areInvariantElementsEqual (a b : SymmetryGroup) : bool :=
  if negb (Z.eqb (hashCode a) (hashCode b)) then false
  else SortedArray_areEqual (sg_elements a) (sg_elements b).

(** ** Sequences of operations on units *)

Inductive Action :=
| ARead (p : PropName) (u : Unit)
| ACreate (id' invariantId' chainGroupId' traits' : nat) (k : Kind) (m : Model)
    (op : SymmetryOperator) (els : list nat) (props : option Props)
| AGetChild (u : Unit) (els : list nat)
| AApplyOperator (u : Unit) (id' : nat) (op : SymmetryOperator) (dontCompose : bool)
| ARemapModel (u : Unit) (m : Model).

Definition step (a : Action) : M unit :=
  match a with
  | ARead p u => _ <- read p u;; ret tt
  | ACreate i v c t k m op els props => _ <- create i v c t k m op els props;; ret tt
  | AGetChild u els => _ <- getChild u els;; ret tt
  | AApplyOperator u i op dc => _ <- applyOperator u i op dc;; ret tt
  | ARemapModel u m => _ <- remapModel u m;; ret tt
  end.

Fixpoint run (acts : list Action) : M unit :=
  match acts with
  | [] => ret tt
  | a :: rest => _ <- step a;; run rest
  end.


(** ** Growth of the heap *)

(** Every property cached in [a] is cached, with the same value, in [b]. *)
Definition bag_extends (a b : Props) : Prop :=
  forall p v, prop_of p a = Some v -> prop_of p b = Some v.

(** From [s] to [s']: no reference is handed out twice, and no bag that
    existed loses or changes a cached property. *)
Definition grows (s s' : State) : Prop :=
  next s <= next s' /\ forall q, q < next s -> bag_extends (view s q) (view s' q).

Definition Grows {A : Type} (m : M A) : Prop := forall t, grows t (snd (m t)).

(** A setter that only fills its own field when that field is absent. *)
Definition SetOk {A : Type} (get : Props -> option A) (set : A -> Props -> Props) : Prop :=
  (forall w x, get (set w x) = Some w) /\
  (forall w x, get x = None -> bag_extends x (set w x)).

(** Computations that leave the heap and the next reference as they are. *)
Definition HeapSame {A : Type} (m : M A) : Prop :=
  forall t, heap (snd (m t)) = heap t /\ next (snd (m t)) = next t.

End UnitModel.

(** No coordinate of [c] at the indices [els] is NaN. *)
Definition not_NaN (v : jsval) : bool :=
  match v with JNum NaN => false | _ => true end.

Definition coords_not_NaN (c : Conformation) (els : list nat) : bool :=
  forallb (fun e => not_NaN (at_index (cx c) e) && not_NaN (at_index (cy c) e)
                    && not_NaN (at_index (cz c) e)) els.

(** ** Index maps of units and groups (lines 134-140 and 169-176) *)

(** Modelled from the spec: [IntMap.Mutable] (mol-data, outside this file's
    sources) is a map from numbers to values (§2: [unitIndexMap] maps a unit
    id to its position in [units]); [set] replaces the value of a key. *)
Definition IntMap (A : Type) : Type := nat -> option A.

Definition IntMap_empty {A : Type} : IntMap A := fun _ => None.

Definition IntMap_set {A : Type} (m : IntMap A) (k : nat) (v : A) : IntMap A :=
  fun k' => if Nat.eqb k' k then Some v else m k'.

(** The loop of [getUnitIndexMap(units)] from index [i] on. *)
Fixpoint getUnitIndexMap_loop (units : list Unit) (i : nat) (m : IntMap nat)
  : IntMap nat :=
  match units with
  | [] => m
  | u :: rest => getUnitIndexMap_loop rest (S i) (IntMap_set m (id u) i)
  end.

(** [getUnitIndexMap(units)] *)
Definition getUnitIndexMap (units : list Unit) : IntMap nat :=
  getUnitIndexMap_loop units 0 IntMap_empty.

(** The loop of [SymmetryGroup.getUnitSymmetryGroupsIndexMap(symmetryGroups)]
    from index [i] on; [symmetryGroups[i].units[0].invariantId] throws a
    TypeError ([None]) on a group without units. *)
Fixpoint getUnitSymmetryGroupsIndexMap_loop (gs : list SymmetryGroup) (i : nat)
  (m : IntMap nat) : option (IntMap nat) :=
  match gs with
  | [] => Some m
  | g :: rest =>
      match sg_units g with
      | [] => None
      | u0 :: _ =>
          getUnitSymmetryGroupsIndexMap_loop rest (S i) (IntMap_set m (invariantId u0) i)
      end
  end.

Definition getUnitSymmetryGroupsIndexMap (gs : list SymmetryGroup) : option (IntMap nat) :=
  getUnitSymmetryGroupsIndexMap_loop gs 0 IntMap_empty.

(** The last position of [k] in [ks], if any. *)
Fixpoint last_pos (ks : list nat) (k : nat) : option nat :=
  match ks with
  | [] => None
  | x :: rest =>
      match last_pos rest k with
      | Some j => Some (S j)
      | None => if Nat.eqb x k then Some 0 else None
      end
  end.

(** The key a group is filed under: the invariant id of its first unit. *)
Definition group_key (g : SymmetryGroup) : nat :=
  match sg_units g with u0 :: _ => invariantId u0 | [] => 0 end.

(** ** Relations between units (lines 529-546) *)

(** [Unit.areSameChainOperatorGroup(a, b)] *)
Definition areSameChainOperatorGroup (a b : Unit) : bool :=
  Nat.eqb (chainGroupId a) (chainGroupId b)
  && String.eqb (op_name (operator (conformation a)))
                (op_name (operator (conformation b))).

Section ConformationEquivalence.

(** [Mat4.areEqual(a, b, eps)] (mol-math, outside this file's sources) is
    kept abstract: the results below hold for any implementation of it. *)
Variable Mat4_areEqual : list Q -> list Q -> Q -> bool.

(** The loop of [areAreConformationsEquivalent]: [u = xs[i]], [v = ys[i]]
    ([undefined] past the end of [ys], and [xb[undefined]] is [undefined]). *)
Fixpoint areAreConformationsEquivalent_loop (xs ys : list nat) (ca cb : Conformation)
  : bool :=
  match xs with
  | [] => true
  | u :: xs' =>
      let rd (arr : list number) :=
        match ys with v :: _ => at_index arr v | [] => JUndefined end in
      if negb (js_strict_eq (at_index (cx ca) u) (rd (cx cb)))
         || negb (js_strict_eq (at_index (cy ca) u) (rd (cy cb)))
         || negb (js_strict_eq (at_index (cz ca) u) (rd (cz cb)))
      then false
      else areAreConformationsEquivalent_loop xs' (tl ys) ca cb
  end.

(** [Unit.areAreConformationsEquivalent(a, b)] with [eps = 1e-6]. *)
Definition areAreConformationsEquivalent (a b : Unit) : bool :=
  if negb (Nat.eqb (List.length (elements a)) (List.length (elements b))) then false
  else if negb (Mat4_areEqual (op_matrix (operator (conformation a)))
                              (op_matrix (operator (conformation b))) (1 # 1000000))
  then false
  else areAreConformationsEquivalent_loop (elements a) (elements b)
         (coordinates (conformation a)) (coordinates (conformation b)).

End ConformationEquivalence.

(** The properties only atomic units have getters for ([bonds], [rings],
    [nucleotideElements], [proteinElements], [residueCount]). *)
Definition atomic_only (p : PropName) : bool :=
  match p with
  | PBonds | PRings | PNucleotideElements | PProteinElements | PResidueCount => true
  | _ => false
  end.

(** ** Sample inputs

    A small instance of the collaborators, two coordinate stores and a few
    operators and units, used by the concrete checks below. *)
Definition sampleExternals : Externals := {|
  Boundary := nat; Lookup3D := nat; PrincipalAxes := nat;
  IntraUnitBonds := nat; UnitRings := nat; Segment := nat;
  getBoundary := fun _ els => List.length els;
  tryAdjustBoundary := fun _ _ b => Some (S b);
  GridLookup3D := fun _ els b => (b + List.length els)%nat;
  getPrincipalAxes := fun u => id u;
  computeIntraUnitBonds := fun u => (100 + List.length (elements u))%nat;
  bonds_canRemap := Nat.even;
  UnitRings_create := fun u => List.length (elements u);
  getAtomicPolymerElements := elements;
  getCoarsePolymerElements := elements;
  getAtomicGapElements := fun _ => [];
  getCoarseGapElements := fun _ => [];
  getNucleotideElements := fun _ => [];
  getProteinElements := elements;
  transientSegments := fun _ els => els;
  hash2 := fun i j => (31 * i + j)%Z;
  SortedArray_hashCode := fun els => Z.of_nat (List.length els);
  hashFnv32a := fun ids => Z.of_nat (List.length ids)
|}.

Definition mat4_of (l : list Z) : list Q := List.map inject_Z l.

Definition op_identity : SymmetryOperator :=
  {| op_name := "1_555"; op_matrix := mat4_of [1;0;0;0; 0;1;0;0; 0;0;1;0; 0;0;0;1]%Z |}.

(** A translation by (1, 0, 0). *)
Definition op_shift_x : SymmetryOperator :=
  {| op_name := "1_655"; op_matrix := mat4_of [1;0;0;0; 0;1;0;0; 0;0;1;0; 1;0;0;1]%Z |}.

Definition fin (z : Z) : number := Finite (inject_Z z).

Definition store_a : Conformation :=
  {| conf_ref := 1; conf_id := 1; cx := [fin 0; fin 1; fin 2]; cy := [fin 0; fin 0; fin 0];
     cz := [fin 5; fin 5; fin 5] |}.

(** A second store with the same coordinates and another identity. *)
Definition store_b : Conformation :=
  {| conf_ref := 2; conf_id := 2; cx := [fin 0; fin 1; fin 2]; cy := [fin 0; fin 0; fin 0];
     cz := [fin 5; fin 5; fin 5] |}.

Definition model_a : Model :=
  {| model_ref := 1; atomicConformation := store_a; coarseSpheres := store_a;
     coarseGaussians := store_a; indexPairBonds := None |}.

(** [u_shifted]: an atomic unit of [model_a] under the translation. *)
Definition u_shifted : Unit :=
  {| u_self := 10; kind := Atomic; id := 0; invariantId := 0; chainGroupId := 0;
     traits := 0; elements := [0; 2]; model := model_a;
     conformation := createMapping op_shift_x store_a None; u_props := 0 |}.

(** A state whose bag 0 caches a boundary, a 3D lookup, principal axes and
    bonds. *)
Definition props_cached : @Props sampleExternals :=
  @Build_Props sampleExternals (Some 3) (Some 7) (Some 9) None None (Some 2) None None None None.

Definition state0 : @State sampleExternals :=
  {| heap := fun q => if Nat.eqb q 0 then Some props_cached else None;
     next := 20; bondCache := []; log := [] |}.

(** An atomic unit of [model_a] whose bag 0 caches several properties. *)
Definition u_cached : Unit :=
  {| u_self := 11; kind := Atomic; id := 1; invariantId := 0; chainGroupId := 0;
     traits := 0; elements := [0; 1]; model := model_a;
     conformation := createMapping op_identity store_a None; u_props := 0 |}.

(** Two models with different stores and different bond-index annotations. *)
Definition model_idx1 : Model :=
  {| model_ref := 2; atomicConformation := store_a; coarseSpheres := store_a;
     coarseGaussians := store_a; indexPairBonds := Some 1 |}.

Definition model_idx2 : Model :=
  {| model_ref := 3; atomicConformation := store_b; coarseSpheres := store_b;
     coarseGaussians := store_b; indexPairBonds := Some 2 |}.

Definition u_indexed : Unit :=
  {| u_self := 12; kind := Atomic; id := 2; invariantId := 0; chainGroupId := 0;
     traits := 0; elements := [0; 1]; model := model_idx1;
     conformation := createMapping op_identity store_a None; u_props := 0 |}.

(** Another atomic unit over the same atoms of [model_a] as [u_cached],
    under another operator, with a bag (1) of its own, still empty. *)
Definition u_twin : Unit :=
  {| u_self := 14; kind := Atomic; id := 4; invariantId := 0; chainGroupId := 0;
     traits := 0; elements := [0; 1]; model := model_a;
     conformation := createMapping op_shift_x store_a None; u_props := 1 |}.

(** A third unit over the same atoms, with an empty bag (2). *)
Definition u_fresh : Unit :=
  {| u_self := 15; kind := Atomic; id := 5; invariantId := 0; chainGroupId := 0;
     traits := 0; elements := [0; 1]; model := model_a;
     conformation := createMapping op_identity store_a None; u_props := 2 |}.

(** [u_cached] with its two elements listed in the other order. *)
Definition u_reordered : Unit :=
  {| u_self := 13; kind := Atomic; id := 3; invariantId := 0; chainGroupId := 0;
     traits := 0; elements := [1; 0]; model := model_a;
     conformation := createMapping op_shift_x store_a None; u_props := 1 |}.

(** The number of runs of [computeIntraUnitBonds] recorded in a log. *)
Definition bond_computations (l : list PropName) : nat :=
  List.length (filter (fun p => match p with PBonds => true | _ => false end) l).

(** [state0] after the first read of [u_fresh.lookup3d], which also computes
    its boundary. *)
Definition state_lookup3d_read : @State sampleExternals :=
  snd (@read sampleExternals PLookup3d u_fresh state0).

(** Later operations: a remap of [u_fresh], a transformed copy sharing its
    bag, a bond read through that copy, and a new unit. *)
Definition later_actions : list (@Action sampleExternals) :=
  [ARemapModel u_fresh model_idx2; AApplyOperator u_fresh 9 op_shift_x false;
   ARead PBonds (@fst _ _ (@applyOperator sampleExternals u_fresh 9 op_shift_x false state0));
   ACreate 7 0 0 0 Atomic model_a op_identity [0; 1; 2] None;
   ARead PBoundary u_fresh].

(** Units listed with a repeated id (1, 4, 1). *)
Definition units_dup : list Unit := [u_cached; u_twin; u_cached].

(** A unit of another chain group, with invariant id 3. *)
Definition u_chain : Unit :=
  {| u_self := 16; kind := Atomic; id := 6; invariantId := 3; chainGroupId := 1;
     traits := 0; elements := [2]; model := model_a;
     conformation := createMapping op_identity store_a None; u_props := 3 |}.

Definition group_a : SymmetryGroup :=
  {| sg_elements := [0; 1]; sg_units := [u_cached; u_twin]; hashCode := 0;
     transformHash := 0 |}.

Definition group_b : SymmetryGroup :=
  {| sg_elements := [2]; sg_units := [u_chain]; hashCode := 0; transformHash := 0 |}.

Definition group_empty : SymmetryGroup :=
  {| sg_elements := []; sg_units := []; hashCode := 0; transformHash := 0 |}.

(** The groups of [u_cached] and of a translated copy of it. *)
Definition group_cached : SymmetryGroup :=
  match @mkSymmetryGroup sampleExternals [u_cached] with Some g => g | None => group_empty end.

Definition group_shifted : SymmetryGroup :=
  match @mkSymmetryGroup sampleExternals
          [fst (@applyOperator sampleExternals u_cached 9 op_shift_x false state0)] with
  | Some g => g
  | None => group_empty
  end.

(** An entrywise comparison of two matrices within [eps]. *)
Definition Mat4_areEqual_sample (a b : list Q) (eps : Q) : bool :=
  forallb (fun i => Qle_bool (mat4_at a i - mat4_at b i) eps
                    && Qle_bool (mat4_at b i - mat4_at a i) eps) (seq 0 16).

(** A store whose first x coordinate is NaN, and a unit reading it. *)
Definition store_nan : Conformation :=
  {| conf_ref := 4; conf_id := 4; cx := [NaN; fin 1]; cy := [fin 0; fin 0];
     cz := [fin 0; fin 0] |}.

Definition u_nan : Unit :=
  {| u_self := 17; kind := Atomic; id := 7; invariantId := 4; chainGroupId := 0;
     traits := 0; elements := [0; 1]; model := model_a;
     conformation := createMapping op_identity store_nan None; u_props := 4 |}.


(** ** C2: the coordinate-identity check *)

Lemma isSameConformation_loop_spec (xs : list nat) (a b : Conformation) :
  isSameConformation_loop xs a b = true <->
  (forall e, In e xs ->
     js_strict_eq (at_index (cx a) e) (at_index (cx b) e) = true /\
     js_strict_eq (at_index (cy a) e) (at_index (cy b) e) = true /\
     js_strict_eq (at_index (cz a) e) (at_index (cz b) e) = true).
Proof.
  induction xs as [|u xs IH]; simpl.
  - split; [intros _ e []|reflexivity].
  - destruct (js_strict_eq (at_index (cx a) u) (at_index (cx b) u)) eqn:Ex,
             (js_strict_eq (at_index (cy a) u) (at_index (cy b) u)) eqn:Ey,
             (js_strict_eq (at_index (cz a) u) (at_index (cz b) u)) eqn:Ez; simpl;
      try (split; [discriminate|];
           intros H; destruct (H u (or_introl eq_refl)) as (H1 & H2 & H3); congruence).
    rewrite IH. split.
    + intros H e [<-|He]; [auto|exact (H e He)].
    + intros H e He. exact (H e (or_intror He)).
Qed.

(** C2 (corrected). [isSameConformation(u, m)] holds exactly when, at every
    index of [u.elements], the raw x/y/z values of the unit's own coordinate
    store ([u.conformation.coordinates], no operator applied) are strictly
    equal ([===]: NaN never matches) to those of [m.atomicConformation]. *)
Theorem isSameConformation_raw_coordinates (a : Unit) (m : Model) :
  isSameConformation a m = true <->
  (forall e, In e (elements a) ->
     js_strict_eq (at_index (cx (coordinates (conformation a))) e)
                  (at_index (cx (atomicConformation m)) e) = true /\
     js_strict_eq (at_index (cy (coordinates (conformation a))) e)
                  (at_index (cy (atomicConformation m)) e) = true /\
     js_strict_eq (at_index (cz (coordinates (conformation a))) e)
                  (at_index (cz (atomicConformation m)) e) = true).
Proof. apply isSameConformation_loop_spec. Qed.

(** C2, counterexample: a unit translated by (1, 0, 0), checked against its
    own model, passes [isSameConformation] although its transformed
    coordinates differ from the raw ones. *)
Lemma isSameConformation_transformed_cex :
  isSameConformation u_shifted model_a = true /\
  spec_isSameConformation u_shifted model_a = false.
Proof. split; vm_compute; reflexivity. Qed.

(** ** Reading and writing property bags *)

Lemma view_modify {X : Externals} (t : State) (pr q : nat) (f : Props -> Props) :
  view (snd (modify_props pr f t)) q = if Nat.eqb q pr then f (view t pr) else view t q.
Proof. unfold view; simpl. destruct (Nat.eqb q pr) eqn:E; [apply Nat.eqb_eq in E; subst|]; reflexivity. Qed.

Lemma memo_cached {X : Externals} {A : Type} (get : Props -> option A) (set : A -> Props -> Props)
  (u : Unit) (compute : M A) (t : State) (v : A) :
  get (view t (u_props u)) = Some v -> memo get set u compute t = (v, t).
Proof. intros H. unfold memo, bind, load, ret. rewrite H. reflexivity. Qed.

Lemma memo_stores {X : Externals} {A : Type} (get : Props -> option A) (set : A -> Props -> Props)
  (u : Unit) (compute : M A) (t t' : State) (v : A) :
  (forall w x, get (set w x) = Some w) ->
  memo get set u compute t = (v, t') -> get (view t' (u_props u)) = Some v.
Proof.
  intros Hset. unfold memo, bind, load, ret.
  destruct (get (view t (u_props u))) eqn:E.
  - intros H; inversion H; subst; exact E.
  - destruct (compute t) as [w t2]. intros H; inversion H; subst.
    unfold view; simpl. rewrite !Nat.eqb_refl. apply Hset.
Qed.

(** After [read p u] returned a value, [u]'s bag caches it. *)
Lemma read_stores {X : Externals} (p : PropName) (u : Unit) (t t' : State) (v : PropVal) :
  read p u t = (Some v, t') -> prop_of p (view t' (u_props u)) = Some v.
Proof.
  destruct p; unfold read, bind, ret; simpl;
    try (destruct (kind u); [|intros H; discriminate H|intros H; discriminate H]);
    match goal with
    | |- context [?g u t] =>
        destruct (g u t) as [w t2] eqn:E; intros H; inversion H; subst;
        apply memo_stores in E; [rewrite E; reflexivity|reflexivity]
    end.
Qed.

(** A cached property is returned as it is, without any change of state. *)
Lemma read_cached {X : Externals} (p : PropName) (u : Unit) (t : State) (v : PropVal) :
  prop_of p (view t (u_props u)) = Some v ->
  (match p with
   | PBonds | PRings | PNucleotideElements | PProteinElements | PResidueCount =>
       kind u = Atomic
   | _ => True end) ->
  read p u t = (Some v, t).
Proof.
  intros Hv Hk. destruct p; simpl in Hv;
    match type of Hv with
    | option_map ?tag (?f ?x) = _ =>
        destruct (f x) as [w|] eqn:E; simpl in Hv; inversion Hv; subst
    end;
    unfold read; simpl in Hk;
    lazymatch type of Hk with kind u = Atomic => rewrite Hk | _ => idtac end;
    unfold bind, ret, get_boundary, get_lookup3d, get_principalAxes, get_bonds,
      get_rings, get_polymerElements, get_gapElements, get_nucleotideElements,
      get_proteinElements, get_residueCount;
    (erewrite memo_cached; [reflexivity|exact E]).
Qed.

(** A read returns a value only for the properties of the unit's kind. *)
Lemma read_kind {X : Externals} (p : PropName) (u : Unit) (t t' : State) (v : PropVal) :
  read p u t = (Some v, t') ->
  match p with
  | PBonds | PRings | PNucleotideElements | PProteinElements | PResidueCount =>
      kind u = Atomic
  | _ => True end.
Proof.
  intros H. destruct p; simpl; auto; unfold read in H; cbv zeta in H;
    destruct (kind u); try reflexivity; unfold ret in H; discriminate H.
Qed.

(** [undefined] is read only for an atomic-only property of a coarse unit,
    with no change of state, and for every unit of that kind. *)
Lemma read_none {X : Externals} (p : PropName) (u : Unit) (t t' : State) :
  read p u t = (None, t') ->
  t' = t /\ forall w t'', kind w = kind u -> read p w t'' = (None, t'').
Proof.
  intros H. destruct p; unfold read in *; cbv zeta in *; unfold bind, ret in *;
    try (destruct (kind u) eqn:K);
    try (match type of H with
         | context [let (_, _) := ?c in _] => destruct c; discriminate H
         end);
    inversion H; subst; split; try reflexivity;
    intros w t'' Hw; rewrite Hw; reflexivity.
Qed.

(** ** C4: child units *)

(** C4. [u.getChild(s)] returns [u] itself, leaving the state untouched
    (no new object), when [s] has as many elements as [u.elements];
    otherwise a new unit (a fresh object reference) of the same kind, ids,
    traits, model and mapping over [s], whose property bag is a new, empty
    one. *)
Theorem getChild_identity_or_fresh {X : Externals} (u : Unit) (els : list nat) (s : State) :
  (List.length els = List.length (elements u) -> getChild u els s = (u, s)) /\
  (List.length els <> List.length (elements u) ->
   let '(c, s') := getChild u els s in
   next s <= u_self c /\ u_props c = next s /\
   kind c = kind u /\ id c = id u /\ invariantId c = invariantId u /\
   chainGroupId c = chainGroupId u /\ traits c = traits u /\
   model c = model u /\ conformation c = conformation u /\ elements c = els /\
   view s' (u_props c) = emptyProps).
Proof.
  unfold getChild. split.
  - intros E. rewrite E, Nat.eqb_refl. reflexivity.
  - intros E. apply Nat.eqb_neq in E. rewrite E. cbn.
    unfold view; simpl. rewrite Nat.eqb_refl.
    repeat split; auto.
Qed.

Lemma getChild_identity_or_fresh_witness :
  (List.length [1; 2] = List.length (elements u_shifted) /\
   getChild u_shifted [1; 2] state0 = (u_shifted, state0)) /\
  (List.length [0] <> List.length (elements u_shifted) /\
   let '(c, s') := getChild u_shifted [0] state0 in
   next state0 <= u_self c /\ u_props c = next state0 /\
   kind c = kind u_shifted /\ id c = id u_shifted /\
   invariantId c = invariantId u_shifted /\
   chainGroupId c = chainGroupId u_shifted /\ traits c = traits u_shifted /\
   model c = model u_shifted /\ conformation c = conformation u_shifted /\
   elements c = [0] /\ view s' (u_props c) = emptyProps).
Proof.
  split; split.
  - reflexivity.
  - apply (proj1 (getChild_identity_or_fresh u_shifted [1; 2] state0)). reflexivity.
  - simpl; discriminate.
  - apply (proj2 (getChild_identity_or_fresh u_shifted [0] state0)). simpl; discriminate.
Defined.

(** ** C9 and C10: applying an operator *)

(** C9. [u.applyOperator(id, op, dontCompose)] returns a new unit (a fresh
    object reference) carrying [id], with [u]'s invariant id, chain group,
    traits, elements, model and kind, mapped over [u]'s own coordinate store
    with operator [compose(u.conformation.operator, op)], or exactly [op]
    when [dontCompose] is set. *)
Theorem applyOperator_operator {X : Externals} (u : Unit) (i : nat)
  (op : SymmetryOperator) (dontCompose : bool) (s : State) :
  let '(u', s') := applyOperator u i op dontCompose s in
  u_self u' = next s /\ id u' = i /\ kind u' = kind u /\
  invariantId u' = invariantId u /\ chainGroupId u' = chainGroupId u /\
  traits u' = traits u /\ elements u' = elements u /\ model u' = model u /\
  coordinates (conformation u') = unit_store u /\
  operator (conformation u') =
    (if dontCompose then op
     else SymmetryOperator_compose (operator (conformation u)) op).
Proof. unfold applyOperator, new_unit, fresh_object, bind, ret; simpl. repeat split. Qed.

(** C10. The unit returned by [u.applyOperator(...)] is handed [u]'s
    property bag itself: right after creation both see the same cache, in
    every later state they see the same bag, and a property read on either
    unit is then returned, as cached, by the other (whatever its
    transform). *)
Theorem applyOperator_shares_props {X : Externals} (u : Unit) (i : nat)
  (op : SymmetryOperator) (dontCompose : bool) (s : State) :
  let '(u', s') := applyOperator u i op dontCompose s in
  u_props u' = u_props u /\
  view s' (u_props u') = view s (u_props u) /\
  (forall t, view t (u_props u') = view t (u_props u)) /\
  (forall (p : PropName) (t : State),
     fst (read p u (snd (read p u' t))) = fst (read p u' t) /\
     fst (read p u' (snd (read p u t))) = fst (read p u t)).
Proof.
  unfold applyOperator, new_unit, fresh_object, bind, ret; simpl.
  set (u' := {| u_self := next s; kind := kind u; id := i; invariantId := invariantId u;
                chainGroupId := chainGroupId u; traits := traits u; elements := elements u;
                model := model u;
                conformation := createMapping
                  (if dontCompose then op
                   else SymmetryOperator_compose (operator (conformation u)) op)
                  (unit_store u) (r (conformation u));
                u_props := u_props u |}).
  assert (Share : forall a b : Unit, u_props a = u_props b -> kind a = kind b ->
            forall p t, fst (read p b (snd (read p a t))) = fst (read p a t)).
  { intros a b Hp Hk p t. destruct (read p a t) as [[v|] t1] eqn:E; simpl.
    - pose proof (read_kind p a t t1 v E) as Ka.
      apply read_stores in E. rewrite Hp in E. rewrite (read_cached p b t1 v E).
      + reflexivity.
      + destruct p; auto; rewrite <- Hk; exact Ka.
    - destruct (read_none p a t t1 E) as [-> Hn]. rewrite (Hn b t (eq_sym Hk)). reflexivity. }
  repeat split; try reflexivity; apply Share; reflexivity.
Qed.

(** ** C1 and C3: remapping to another model *)

Lemma js_strict_eq_refl (v : jsval) : not_NaN v = true -> js_strict_eq v v = true.
Proof.
  destruct v as [[q|b|]|]; simpl; intros H; try discriminate; try reflexivity.
  - apply Qeq_bool_refl.
  - apply Bool.eqb_reflx.
Qed.

Lemma isSameConformation_loop_refl (xs : list nat) (c : Conformation) :
  coords_not_NaN c xs = true -> isSameConformation_loop xs c c = true.
Proof.
  intros H. apply isSameConformation_loop_spec. intros e He.
  unfold coords_not_NaN in H. rewrite forallb_forall in H.
  specialize (H e He). apply andb_prop in H as [H Hz]. apply andb_prop in H as [Hx Hy].
  repeat split; apply js_strict_eq_refl; assumption.
Qed.

(** C1 (corrected). Remapping an atomic unit to a model [B] whose atomic
    coordinate store is the one of the unit's model gives a new unit bound to
    [B] with the same ids, traits, elements and mapping, and a new property
    bag that copies the old one except that [lookup3d] and [principalAxes]
    are always cleared; [boundary], [bonds], [rings], the element subsets and
    [residueCount] are carried over unchanged (when no coordinate of the
    unit's elements is NaN, which [===] would not match).  The unit is one
    whose mapping reads its model's store, as every unit built by
    [create], [getChild], [applyOperator] and [remapModel] is. *)
Theorem remapModel_same_store {X : Externals} (u : Unit) (B : Model) (s : State) :
  kind u = Atomic ->
  coordinates (conformation u) = atomicConformation (model u) ->
  atomicConformation B = atomicConformation (model u) ->
  coords_not_NaN (atomicConformation B) (elements u) = true ->
  let '(u', s') := remapModel u B s in
  model u' = B /\ kind u' = Atomic /\ id u' = id u /\
  invariantId u' = invariantId u /\ chainGroupId u' = chainGroupId u /\
  traits u' = traits u /\ elements u' = elements u /\
  conformation u' = conformation u /\
  p_lookup3d (view s' (u_props u')) = None /\
  p_principalAxes (view s' (u_props u')) = None /\
  (forall p, p <> PLookup3d -> p <> PPrincipalAxes ->
     prop_of p (view s' (u_props u')) = prop_of p (view s (u_props u))).
Proof.
  intros K C E N.
  assert (Same : isSameConformation u B = true).
  { unfold isSameConformation. rewrite C, <- E. apply isSameConformation_loop_refl, N. }
  unfold remapModel. rewrite K.
  unfold bind, load, alloc, new_unit, fresh_object, ret. simpl.
  rewrite Same, E, Nat.eqb_refl. simpl.
  set (pr := view s (u_props u)).
  unfold view; simpl. rewrite !Nat.eqb_refl.
  repeat split; try reflexivity.
  intros p H1 H2. unfold remapped_props.
  destruct p; simpl; try reflexivity; try congruence.
  - destruct (p_boundary pr); reflexivity.
  - unfold tryRemapBonds. rewrite E, Nat.eqb_refl.
    destruct (p_bonds pr); reflexivity.
Qed.

Lemma remapModel_same_store_witness :
  (kind u_cached = Atomic /\
   coordinates (conformation u_cached) = atomicConformation (model u_cached) /\
   atomicConformation model_a = atomicConformation (model u_cached) /\
   coords_not_NaN (atomicConformation model_a) (elements u_cached) = true) /\
  (let '(u', s') := remapModel u_cached model_a state0 in
   model u' = model_a /\ kind u' = Atomic /\ id u' = id u_cached /\
   invariantId u' = invariantId u_cached /\ chainGroupId u' = chainGroupId u_cached /\
   traits u' = traits u_cached /\ elements u' = elements u_cached /\
   conformation u' = conformation u_cached /\
   p_lookup3d (view s' (u_props u')) = None /\
   p_principalAxes (view s' (u_props u')) = None /\
   (forall p, p <> PLookup3d -> p <> PPrincipalAxes ->
      prop_of p (view s' (u_props u')) = prop_of p (view state0 (u_props u_cached)))).
Proof.
  split.
  - repeat split; vm_compute; reflexivity.
  - apply (remapModel_same_store u_cached model_a state0);
      vm_compute; reflexivity.
Defined.

(** C1, counterexample: remapping [u_cached] to its own model drops the
    cached [lookup3d]. *)
Lemma remapModel_same_store_cex :
  atomicConformation model_a = atomicConformation (model u_cached) /\
  p_lookup3d (view state0 (u_props u_cached)) = Some 7 /\
  (let '(u', s') := remapModel u_cached model_a state0 in
   p_lookup3d (view s' (u_props u')) = None).
Proof. vm_compute. repeat split. Qed.

(** The outcome of [tryRemapBonds] on cached bonds [o]: [o] itself or
    [undefined], and [o] exactly in the three cases of the source. *)
Lemma tryRemapBonds_cases {X : Externals} (u : Unit) (o : IntraUnitBonds) (B : Model) :
  (tryRemapBonds u (Some o) B = Some o \/ tryRemapBonds u (Some o) B = None) /\
  (tryRemapBonds u (Some o) B = Some o <->
   conf_id (atomicConformation (model u)) = conf_id (atomicConformation B) \/
   (exists k, indexPairBonds (model u) = Some k /\
              (indexPairBonds B = None \/ indexPairBonds B = Some k)) \/
   (indexPairBonds (model u) = None /\
    (bonds_canRemap o = true \/ isSameConformation u B = true))).
Proof.
  unfold tryRemapBonds.
  destruct (Nat.eqb_spec (conf_id (atomicConformation (model u)))
                         (conf_id (atomicConformation B))) as [E|E].
  - split; [left; reflexivity|]. split; [intros _; left; exact E|reflexivity].
  - destruct (indexPairBonds (model u)) as [k|] eqn:IA.
    + destruct (indexPairBonds B) as [k'|] eqn:IB.
      * destruct (Nat.eqb_spec k k') as [<-|Nk].
        -- split; [left; reflexivity|].
           split; [intros _; right; left; exists k; auto|reflexivity].
        -- split; [right; reflexivity|].
           split; [discriminate|].
           intros [H|[[k0 [H1 [H2|H2]]]|[H1 _]]]; congruence.
      * split; [left; reflexivity|].
        split; [intros _; right; left; exists k; auto|reflexivity].
    + destruct (bonds_canRemap o) eqn:Cr.
      * split; [left; reflexivity|].
        split; [intros _; right; right; auto|reflexivity].
      * destruct (isSameConformation u B) eqn:Sm.
        -- split; [left; reflexivity|].
           split; [intros _; right; right; auto|reflexivity].
        -- split; [right; reflexivity|].
           split; [discriminate|].
           intros [H|[[k0 [H1 _]]|[_ [H|H]]]]; congruence.
Qed.

(** C3 (corrected). When an atomic unit bound to model [A] has cached bonds
    [o], remapping it to [B] keeps exactly [o] or drops the bonds, and keeps
    them iff (a) [A] and [B] have the same atomic-conformation id, or (b) [A]
    carries an explicit bond-index annotation and [B] carries none or the
    same one, or (c) [A] carries no annotation and the bonds are marked
    [canRemap] or [isSameConformation(u, B)] holds.  In particular an
    annotation on [A] that [B] replaces by another one drops the bonds even
    when they are marked [canRemap]. *)
Theorem remapModel_bonds {X : Externals} (u : Unit) (B : Model) (s : State)
  (o : IntraUnitBonds) :
  kind u = Atomic ->
  p_bonds (view s (u_props u)) = Some o ->
  let '(u', s') := remapModel u B s in
  (p_bonds (view s' (u_props u')) = Some o \/ p_bonds (view s' (u_props u')) = None) /\
  (p_bonds (view s' (u_props u')) = Some o <->
   conf_id (atomicConformation (model u)) = conf_id (atomicConformation B) \/
   (exists k, indexPairBonds (model u) = Some k /\
              (indexPairBonds B = None \/ indexPairBonds B = Some k)) \/
   (indexPairBonds (model u) = None /\
    (bonds_canRemap o = true \/ isSameConformation u B = true))).
Proof.
  intros K Hb.
  unfold remapModel. rewrite K.
  unfold bind, load, alloc, new_unit, fresh_object, ret. simpl.
  set (pr := view s (u_props u)) in *.
  unfold view; simpl. rewrite !Nat.eqb_refl. simpl.
  rewrite Hb. apply tryRemapBonds_cases.
Qed.

Lemma remapModel_bonds_witness :
  (kind u_cached = Atomic /\ p_bonds (view state0 (u_props u_cached)) = Some 2) /\
  (let '(u', s') := remapModel u_cached model_idx2 state0 in
   (p_bonds (view s' (u_props u')) = Some 2 \/ p_bonds (view s' (u_props u')) = None) /\
   (p_bonds (view s' (u_props u')) = Some 2 <->
    conf_id (atomicConformation (model u_cached)) = conf_id (atomicConformation model_idx2) \/
    (exists k, indexPairBonds (model u_cached) = Some k /\
               (indexPairBonds model_idx2 = None \/ indexPairBonds model_idx2 = Some k)) \/
    (indexPairBonds (model u_cached) = None /\
     (@bonds_canRemap sampleExternals 2 = true \/ isSameConformation u_cached model_idx2 = true)))).
Proof.
  split.
  - split; vm_compute; reflexivity.
  - apply (remapModel_bonds u_cached model_idx2 state0 2); vm_compute; reflexivity.
Defined.

(** C3, counterexample: bonds marked [canRemap] (condition (c)) are dropped
    when the unit's model carries bond-index annotation 1 and the target
    model annotation 2. *)
Lemma remapModel_bonds_cex :
  @bonds_canRemap sampleExternals 2 = true /\
  p_bonds (view state0 (u_props u_indexed)) = Some 2 /\
  (let '(u', s') := remapModel u_indexed model_idx2 state0 in
   p_bonds (view s' (u_props u')) = None).
Proof. vm_compute. repeat split. Qed.

(** ** C5: invariant equality of symmetry groups *)

Lemma nat_list_eqb_eq (a b : list nat) : nat_list_eqb a b = true <-> a = b.
Proof.
  revert b; induction a as [|x a IH]; intros [|y b]; simpl;
    try (split; [discriminate|intros H; discriminate H]).
  - split; reflexivity.
  - rewrite andb_true_iff, Nat.eqb_eq, IH. split.
    + intros [-> ->]; reflexivity.
    + intros H; inversion H; split; reflexivity.
Qed.

(** C5. [areInvariantElementsEqual(a, b)] holds iff the two hash codes are
    equal and the canonical element sequences are equal in order.  Hence two
    groups built from units with the same invariant id over the same ordered
    element sequence are invariant-equal whatever the ids and operators of
    their units, and two groups whose first units have different element
    sequences (for instance two different orderings of the same indices) are
    not. *)
Theorem areInvariantElementsEqual_spec {X : Externals} :
  (forall a b : SymmetryGroup,
     areInvariantElementsEqual a b = true <->
     hashCode a = hashCode b /\ sg_elements a = sg_elements b) /\
  (forall (u0 v0 : Unit) (us vs : list Unit) (ga gb : SymmetryGroup),
     mkSymmetryGroup (u0 :: us) = Some ga -> mkSymmetryGroup (v0 :: vs) = Some gb ->
     invariantId u0 = invariantId v0 -> elements u0 = elements v0 ->
     areInvariantElementsEqual ga gb = true) /\
  (forall (u0 v0 : Unit) (us vs : list Unit) (ga gb : SymmetryGroup),
     mkSymmetryGroup (u0 :: us) = Some ga -> mkSymmetryGroup (v0 :: vs) = Some gb ->
     elements u0 <> elements v0 ->
     areInvariantElementsEqual ga gb = false).
Proof.
  assert (Spec : forall a b : SymmetryGroup,
            areInvariantElementsEqual a b = true <->
            hashCode a = hashCode b /\ sg_elements a = sg_elements b).
  { intros a b. unfold areInvariantElementsEqual, SortedArray_areEqual.
    destruct (Z.eqb_spec (hashCode a) (hashCode b)) as [E|E]; simpl.
    - rewrite nat_list_eqb_eq. split; [intros H; split; assumption|intros [_ H]; exact H].
    - split; [discriminate|intros [H _]; contradiction]. }
  split; [exact Spec|split].
  - intros u0 v0 us vs ga gb Ga Gb Hi He.
    simpl in Ga, Gb. injection Ga as <-. injection Gb as <-.
    apply Spec; simpl. unfold hashUnit. rewrite Hi, He. split; reflexivity.
  - intros u0 v0 us vs ga gb Ga Gb He.
    simpl in Ga, Gb. injection Ga as <-. injection Gb as <-.
    destruct (areInvariantElementsEqual _ _) eqn:E; [|reflexivity].
    apply Spec in E as [_ E]. simpl in E. contradiction.
Qed.


Lemma areInvariantElementsEqual_spec_witness :
  (exists ga gb,
     @mkSymmetryGroup sampleExternals [u_cached] = Some ga /\
     @mkSymmetryGroup sampleExternals [u_indexed; u_shifted] = Some gb /\
     invariantId u_cached = invariantId u_indexed /\
     elements u_cached = elements u_indexed /\
     areInvariantElementsEqual ga gb = true) /\
  (exists ga gb,
     @mkSymmetryGroup sampleExternals [u_cached] = Some ga /\
     @mkSymmetryGroup sampleExternals [u_reordered] = Some gb /\
     elements u_cached <> elements u_reordered /\
     areInvariantElementsEqual ga gb = false).
Proof.
  destruct (@areInvariantElementsEqual_spec sampleExternals) as (_ & Same & Diff).
  split.
  - eexists; eexists. split; [reflexivity|]. split; [reflexivity|].
    split; [reflexivity|]. split; [reflexivity|].
    apply (Same u_cached u_indexed [] [u_shifted]); reflexivity.
  - eexists; eexists. split; [reflexivity|]. split; [reflexivity|].
    split; [discriminate|].
    apply (Diff u_cached u_reordered [] []); try reflexivity; discriminate.
Defined.

(** ** C7: sharing bonds through the model's cache *)

Lemma nat_list_eqb_refl (a : list nat) : nat_list_eqb a a = true.
Proof. apply nat_list_eqb_eq; reflexivity. Qed.

(** Reading [bonds] of a unit whose bag has none: the bag gains the result,
    the model's cache then holds it for the unit's elements, it is taken from
    the cache when the cache had an entry, and [computeIntraUnitBonds] ran
    at most once. *)
Lemma get_bonds_uncached {X : Externals} (u : Unit) (s : State) :
  p_bonds (view s (u_props u)) = None ->
  let '(b, s1) := get_bonds u s in
  (forall q, view s1 q = if Nat.eqb q (u_props u) then set_bonds b (view s q) else view s q) /\
  bondCache_find (bondCache s1) (model_ref (model u)) (elements u) = Some b /\
  bond_computations (log s1) <= bond_computations (log s) + 1 /\
  (forall b0, bondCache_find (bondCache s) (model_ref (model u)) (elements u) = Some b0 ->
              b = b0 /\ log s1 = log s).
Proof.
  intros H. unfold get_bonds, memo, bind, load, ret. rewrite H.
  unfold bondCache_get.
  destruct (bondCache_find (bondCache s) (model_ref (model u)) (elements u)) as [b|] eqn:F;
    simpl.
  - split; [intros q; unfold view at 1; simpl;
            destruct (Nat.eqb_spec q (u_props u)) as [->|]; reflexivity|].
    split; [exact F|]. split; [lia|].
    intros b0 E. split; [congruence|reflexivity].
  - split; [intros q; unfold view at 1; simpl;
            destruct (Nat.eqb_spec q (u_props u)) as [->|]; reflexivity|].
    split; [rewrite Nat.eqb_refl, nat_list_eqb_refl; reflexivity|].
    split.
    + unfold bond_computations. rewrite filter_app, length_app. simpl. lia.
    + intros b0 E. discriminate E.
Qed.

(** C7 (corrected; the cache is modelled from the spec). For two atomic
    units of the same model with equal invariant ids and equal element
    sequences, neither of which has bonds in its own property bag yet,
    reading [u1.bonds] and then [u2.bonds] runs [computeIntraUnitBonds] at
    most once in total and both reads return the same graph. *)
Theorem bonds_shared_cache {X : Externals} (u1 u2 : Unit) (s : State) :
  kind u1 = Atomic -> kind u2 = Atomic ->
  model u1 = model u2 -> invariantId u1 = invariantId u2 ->
  elements u1 = elements u2 ->
  p_bonds (view s (u_props u1)) = None ->
  p_bonds (view s (u_props u2)) = None ->
  let '(b1, s1) := get_bonds u1 s in
  let '(b2, s2) := get_bonds u2 s1 in
  b1 = b2 /\ bond_computations (log s2) <= bond_computations (log s) + 1.
Proof.
  intros K1 K2 Hm Hi He N1 N2.
  pose proof (get_bonds_uncached u1 s N1) as L1.
  destruct (get_bonds u1 s) as [b1 s1] eqn:G1.
  destruct L1 as (V1 & F1 & C1 & _).
  destruct (Nat.eqb_spec (u_props u2) (u_props u1)) as [Ep|Ep].
  - assert (Hc : p_bonds (view s1 (u_props u2)) = Some b1).
    { rewrite V1, Ep, Nat.eqb_refl. reflexivity. }
    unfold get_bonds. rewrite (memo_cached _ _ u2 _ s1 b1 Hc).
    split; [reflexivity|lia].
  - assert (N2' : p_bonds (view s1 (u_props u2)) = None).
    { rewrite V1. apply Nat.eqb_neq in Ep. rewrite Ep. exact N2. }
    pose proof (get_bonds_uncached u2 s1 N2') as L2.
    destruct (get_bonds u2 s1) as [b2 s2].
    destruct L2 as (_ & _ & _ & Hit).
    rewrite <- Hm, <- He in Hit. destruct (Hit b1 F1) as [-> ->].
    split; [reflexivity|exact C1].
Qed.

Lemma bonds_shared_cache_witness :
  (kind u_twin = Atomic /\ kind u_fresh = Atomic /\
   model u_twin = model u_fresh /\ invariantId u_twin = invariantId u_fresh /\
   elements u_twin = elements u_fresh /\
   p_bonds (view state0 (u_props u_twin)) = None /\
   p_bonds (view state0 (u_props u_fresh)) = None) /\
  (let '(b1, s1) := get_bonds u_twin state0 in
   let '(b2, s2) := get_bonds u_fresh s1 in
   b1 = b2 /\ bond_computations (log s2) <= bond_computations (log state0) + 1).
Proof.
  split.
  - repeat split.
  - apply (bonds_shared_cache u_twin u_fresh state0); reflexivity.
Defined.

(** C7, counterexample: [u_cached] already holds bonds 2 in its own bag;
    reading them and then the bonds of [u_twin] (same model, invariant id and
    elements) gives [computeIntraUnitBonds(u_twin)] = 102: another graph. *)
Lemma bonds_shared_cache_cex :
  model u_cached = model u_twin /\ invariantId u_cached = invariantId u_twin /\
  elements u_cached = elements u_twin /\
  (let '(b1, s1) := get_bonds u_cached state0 in
   let '(b2, s2) := get_bonds u_twin s1 in
   b1 = 2 /\ b2 = 102).
Proof. vm_compute. repeat split. Qed.

(** ** C8: memoization *)

Section Growth.
Context {X : Externals}.




Lemma grows_refl (s : State) : grows s s.
Proof. split; [lia|intros q _ p v H; exact H]. Qed.

Lemma grows_trans (s1 s2 s3 : State) : grows s1 s2 -> grows s2 s3 -> grows s1 s3.
Proof.
  intros [N1 B1] [N2 B2]. split; [lia|].
  intros q Hq p v H. apply B2; [lia|]. apply B1; assumption.
Qed.

Lemma Grows_ret {A : Type} (a : A) : Grows (ret a).
Proof. intros t. apply grows_refl. Qed.

Lemma Grows_bind {A B : Type} (m : M A) (f : A -> M B) :
  Grows m -> (forall a, Grows (f a)) -> Grows (bind m f).
Proof.
  intros Hm Hf t. unfold bind. specialize (Hm t).
  destruct (m t) as [a t1]. simpl in Hm. eapply grows_trans; [exact Hm|apply Hf].
Qed.

(** Steps that leave the heap and the next reference as they are. *)
Lemma grows_same_heap (s s' : State) :
  heap s' = heap s -> next s' = next s -> grows s s'.
Proof.
  intros H N. split; [lia|]. intros q _ p v E. unfold view in *. rewrite H. exact E.
Qed.

Lemma Grows_load (pr : nat) : Grows (load pr).
Proof. intros t. apply grows_refl. Qed.

Lemma Grows_record (p : PropName) : Grows (record_computation p).
Proof. intros t. apply grows_same_heap; reflexivity. Qed.

Lemma Grows_bondCache_get (m : Model) (els : list nat) : Grows (bondCache_get m els).
Proof. intros t. apply grows_refl. Qed.

Lemma Grows_bondCache_set (m : Model) (els : list nat) (b : IntraUnitBonds) :
  Grows (bondCache_set m els b).
Proof. intros t. apply grows_same_heap; reflexivity. Qed.

Lemma Grows_alloc (p : Props) : Grows (alloc p).
Proof.
  intros t. split; simpl; [lia|].
  intros q Hq p' v E. unfold view in *; simpl.
  destruct (Nat.eqb_spec q (next t)); [lia|exact E].
Qed.

Lemma Grows_fresh_object : Grows fresh_object.
Proof. intros t. split; simpl; [lia|]. intros q _ p v E. exact E. Qed.


Ltac setok := split; [reflexivity|];
  intros w x Hx p v E; destruct p; simpl in *; try exact E;
  rewrite Hx in E; discriminate E.

Lemma SetOk_boundary : SetOk p_boundary set_boundary. Proof. setok. Qed.
Lemma SetOk_lookup3d : SetOk p_lookup3d set_lookup3d. Proof. setok. Qed.
Lemma SetOk_principalAxes : SetOk p_principalAxes set_principalAxes. Proof. setok. Qed.
Lemma SetOk_polymerElements : SetOk p_polymerElements set_polymerElements. Proof. setok. Qed.
Lemma SetOk_gapElements : SetOk p_gapElements set_gapElements. Proof. setok. Qed.
Lemma SetOk_bonds : SetOk p_bonds set_bonds. Proof. setok. Qed.
Lemma SetOk_rings : SetOk p_rings set_rings. Proof. setok. Qed.
Lemma SetOk_nucleotideElements : SetOk p_nucleotideElements set_nucleotideElements. Proof. setok. Qed.
Lemma SetOk_proteinElements : SetOk p_proteinElements set_proteinElements. Proof. setok. Qed.
Lemma SetOk_residueCount : SetOk p_residueCount set_residueCount. Proof. setok. Qed.

Lemma Grows_memo {A : Type} (get : Props -> option A) (set : A -> Props -> Props)
  (u : Unit) (compute : M A) :
  SetOk get set -> Grows compute ->
  (forall t, get (view (snd (compute t)) (u_props u)) = get (view t (u_props u))) ->
  Grows (memo get set u compute).
Proof.
  intros [Hget Hset] Hc Hpres t. unfold memo, bind, load, ret.
  destruct (get (view t (u_props u))) eqn:E; [apply grows_refl|].
  specialize (Hc t). specialize (Hpres t).
  destruct (compute t) as [v t2]. simpl in *.
  eapply grows_trans; [exact Hc|]. split; simpl; [lia|].
  intros q _. unfold view at 2; simpl.
  destruct (Nat.eqb_spec q (u_props u)) as [->|].
  - apply Hset. rewrite Hpres. exact E.
  - intros p' v' H. exact H.
Qed.

(** A [memo] whose computation leaves the heap alone changes no field other
    than its own, in any bag. *)
Lemma memo_other_fields {A B : Type} (get : Props -> option A) (set : A -> Props -> Props)
  (f : Props -> B) (u : Unit) (compute : M A) :
  (forall w x, f (set w x) = f x) ->
  (forall t, heap (snd (compute t)) = heap t) ->
  forall t q, f (view (snd (memo get set u compute t)) q) = f (view t q).
Proof.
  intros Hf Hc t q. unfold memo, bind, load, ret.
  destruct (get (view t (u_props u))); [reflexivity|].
  specialize (Hc t). destruct (compute t) as [v t2]. simpl in *.
  unfold view at 1; simpl. destruct (Nat.eqb_spec q (u_props u)) as [->|].
  - rewrite Hf. unfold view. rewrite Hc. reflexivity.
  - unfold view. rewrite Hc. reflexivity.
Qed.


Lemma HeapSame_ret {A : Type} (a : A) : HeapSame (ret a).
Proof. intros t. split; reflexivity. Qed.

Lemma HeapSame_bind {A B : Type} (m : M A) (f : A -> M B) :
  HeapSame m -> (forall a, HeapSame (f a)) -> HeapSame (bind m f).
Proof.
  intros Hm Hf t. unfold bind. specialize (Hm t).
  destruct (m t) as [a t1]. simpl in Hm. destruct Hm as [H1 N1].
  destruct (Hf a t1) as [H2 N2]. rewrite H2, N2. split; assumption.
Qed.

Lemma HeapSame_record (p : PropName) : HeapSame (record_computation p).
Proof. intros t. split; reflexivity. Qed.

Lemma HeapSame_bondCache_get (m : Model) (els : list nat) : HeapSame (bondCache_get m els).
Proof. intros t. split; reflexivity. Qed.

Lemma HeapSame_bondCache_set (m : Model) (els : list nat) (b : IntraUnitBonds) :
  HeapSame (bondCache_set m els b).
Proof. intros t. split; reflexivity. Qed.

Lemma HeapSame_heap {A : Type} (m : M A) :
  HeapSame m -> forall t, heap (snd (m t)) = heap t.
Proof. intros H t. exact (proj1 (H t)). Qed.

Lemma HeapSame_Grows {A : Type} (m : M A) : HeapSame m -> Grows m.
Proof. intros H t. destruct (H t). apply grows_same_heap; assumption. Qed.

Lemma HeapSame_view {A : Type} (m : M A) :
  HeapSame m -> forall t q, view (snd (m t)) q = view t q.
Proof. intros H t q. unfold view. rewrite (proj1 (H t)). reflexivity. Qed.

Ltac heapsame :=
  repeat first
    [ apply HeapSame_ret | apply HeapSame_record | apply HeapSame_bondCache_get
    | apply HeapSame_bondCache_set
    | apply HeapSame_bind; [|intros ?]
    | match goal with |- HeapSame (match ?x with _ => _ end) => destruct x end ].

Ltac memo_grows setok :=
  apply Grows_memo; [exact setok | apply HeapSame_Grows; heapsame
                     | intros t; rewrite HeapSame_view; [reflexivity|heapsame]].

Lemma Grows_boundary (u : Unit) : Grows (get_boundary u).
Proof. unfold get_boundary. memo_grows SetOk_boundary. Qed.

Lemma Grows_lookup3d (u : Unit) : Grows (get_lookup3d u).
Proof.
  unfold get_lookup3d. apply Grows_memo; [exact SetOk_lookup3d| |].
  - apply Grows_bind; [apply Grows_boundary|intros b].
    apply HeapSame_Grows; heapsame.
  - intros t. unfold bind at 1. destruct (get_boundary u t) as [b t1] eqn:E.
    rewrite HeapSame_view; [|heapsame].
    change t1 with (snd (b, t1)). rewrite <- E. unfold get_boundary.
    apply (memo_other_fields p_boundary set_boundary p_lookup3d); [reflexivity|].
    apply HeapSame_heap. heapsame.
Qed.

Lemma Grows_principalAxes (u : Unit) : Grows (get_principalAxes u).
Proof. unfold get_principalAxes. memo_grows SetOk_principalAxes. Qed.

Lemma Grows_bonds (u : Unit) : Grows (get_bonds u).
Proof. unfold get_bonds. memo_grows SetOk_bonds. Qed.

Lemma Grows_rings (u : Unit) : Grows (get_rings u).
Proof. unfold get_rings. memo_grows SetOk_rings. Qed.

Lemma Grows_polymerElements (u : Unit) : Grows (get_polymerElements u).
Proof. unfold get_polymerElements. memo_grows SetOk_polymerElements. Qed.

Lemma Grows_gapElements (u : Unit) : Grows (get_gapElements u).
Proof. unfold get_gapElements. memo_grows SetOk_gapElements. Qed.

Lemma Grows_nucleotideElements (u : Unit) : Grows (get_nucleotideElements u).
Proof. unfold get_nucleotideElements. memo_grows SetOk_nucleotideElements. Qed.

Lemma Grows_proteinElements (u : Unit) : Grows (get_proteinElements u).
Proof. unfold get_proteinElements. memo_grows SetOk_proteinElements. Qed.

Lemma Grows_residueCount (u : Unit) : Grows (get_residueCount u).
Proof. unfold get_residueCount. memo_grows SetOk_residueCount. Qed.

Ltac grows :=
  repeat first
    [ apply Grows_ret | apply Grows_load | apply Grows_alloc | apply Grows_fresh_object
    | apply Grows_boundary | apply Grows_lookup3d | apply Grows_principalAxes
    | apply Grows_bonds | apply Grows_rings | apply Grows_polymerElements
    | apply Grows_gapElements | apply Grows_nucleotideElements
    | apply Grows_proteinElements | apply Grows_residueCount
    | apply Grows_bind; [|intros ?]
    | match goal with |- Grows (match ?x with _ => _ end) => destruct x end
    | match goal with |- Grows (if ?x then _ else _) => destruct x end ].

Lemma Grows_read (p : PropName) (u : Unit) : Grows (read p u).
Proof. unfold read; destruct p; cbv beta iota zeta; grows. Qed.

Lemma Grows_new_unit k i v c t m els cf pr :
  Grows (new_unit k i v c t m els cf pr).
Proof. unfold new_unit. grows. Qed.

Lemma Grows_step (a : Action) : Grows (step a).
Proof.
  destruct a; unfold step, create, getChild, applyOperator, remapModel;
    cbv beta iota zeta; grows; first [apply Grows_read | apply Grows_new_unit].
Qed.

Lemma Grows_run (acts : list Action) : Grows (run acts).
Proof.
  induction acts as [|a rest IH]; simpl; [apply Grows_ret|].
  apply Grows_bind; [apply Grows_step|intros _; exact IH].
Qed.

End Growth.

(** C8. Every derived property is memoized in the unit's property bag: once
    a read of [p] on [u] has returned [v], any later sequence of operations
    (reads of any unit, [create], [getChild], [applyOperator], [remapModel])
    leaves [v] in place, and reading [p] on [u] again returns [v] without
    running any computation: the state, and so its log of computations, is
    unchanged by the read. *)
Theorem read_memoized {X : Externals} (p : PropName) (u : Unit) (s s1 : State)
  (v : PropVal) :
  u_props u < next s -> read p u s = (Some v, s1) ->
  forall acts : list Action,
    read p u (snd (run acts s1)) = (Some v, snd (run acts s1)).
Proof.
  intros Hlt Hr acts.
  pose proof (read_stores p u s s1 v Hr) as Hs.
  pose proof (read_kind p u s s1 v Hr) as Hk.
  pose proof (Grows_read p u s) as [N1 _]. rewrite Hr in N1. simpl in N1.
  destruct (Grows_run acts s1) as [_ B].
  apply read_cached; [|exact Hk].
  apply B; [lia|exact Hs].
Qed.

Lemma read_memoized_witness :
  (2 < next state0 /\
   @read sampleExternals PLookup3d u_fresh state0
     = (Some (@VLookup3d sampleExternals 4), state_lookup3d_read)) /\
  @read sampleExternals PLookup3d u_fresh (snd (run later_actions state_lookup3d_read))
    = (Some (@VLookup3d sampleExternals 4), snd (run later_actions state_lookup3d_read)).
Proof.
  assert (H1 : 2 < next state0) by (simpl; lia).
  assert (H2 : @read sampleExternals PLookup3d u_fresh state0
                 = (Some (@VLookup3d sampleExternals 4), state_lookup3d_read)) by reflexivity.
  split; [split; assumption|].
  exact (read_memoized PLookup3d u_fresh state0 state_lookup3d_read _ H1 H2 later_actions).
Defined.

(** * Further properties of the unit code *)

(** ** Index maps *)

Lemma last_pos_none (ks : list nat) (k : nat) : last_pos ks k = None <-> ~ In k ks.
Proof.
  induction ks as [|x rest IH]; simpl; [tauto|].
  destruct (last_pos rest k) eqn:E.
  - split; [discriminate|]. intros H. exfalso. apply H. right.
    destruct (in_dec Nat.eq_dec k rest) as [Hi|Hi]; [exact Hi|].
    apply IH in Hi. discriminate Hi.
  - destruct (Nat.eqb_spec x k) as [->|Hx].
    + split; [discriminate|]. intros H. exfalso. apply H. left. reflexivity.
    + split; [|reflexivity]. intros _ [H|H]; [congruence|]. apply (proj1 IH eq_refl H).
Qed.

Lemma last_pos_some (ks : list nat) (k i : nat) :
  last_pos ks k = Some i <->
  nth_error ks i = Some k /\ forall j, i < j -> nth_error ks j <> Some k.
Proof.
  revert i. induction ks as [|x rest IH]; intros i; simpl.
  - split; [discriminate|]. intros [H _]. destruct i; discriminate H.
  - destruct (last_pos rest k) as [n|] eqn:E.
    + pose proof (proj1 (IH n) eq_refl) as [Hn Hl]. split.
      * intros H. injection H as <-. split; [exact Hn|].
        intros [|j] Hj; simpl; [lia|]. apply Hl. lia.
      * intros [Hi Hl']. destruct i as [|i].
        -- exfalso. apply (Hl' (S n)); [lia|exact Hn].
        -- assert (Hni : Some n = Some i).
           { apply (IH i). split; [exact Hi|]. intros j Hj. apply (Hl' (S j)). lia. }
           congruence.
    + apply last_pos_none in E.
      destruct (Nat.eqb_spec x k) as [->|Hx].
      * split.
        -- intros H. injection H as <-. split; [reflexivity|].
           intros [|j] Hj; [lia|]. simpl. intros H. apply E. eapply nth_error_In. exact H.
        -- intros [Hi _]. destruct i as [|i]; [reflexivity|].
           exfalso. apply E. eapply nth_error_In. exact Hi.
      * split; [discriminate|]. intros [Hi _]. destruct i as [|i].
        -- simpl in Hi. congruence.
        -- exfalso. apply E. eapply nth_error_In. exact Hi.
Qed.

Lemma getUnitIndexMap_loop_eq (units : list Unit) (i0 : nat) (m : IntMap nat) (k : nat) :
  getUnitIndexMap_loop units i0 m k =
  match last_pos (List.map id units) k with
  | Some j => Some (i0 + j)
  | None => m k
  end.
Proof.
  revert i0 m. induction units as [|u rest IH]; intros i0 m; simpl; [reflexivity|].
  rewrite IH. destruct (last_pos (List.map id rest) k); [f_equal; lia|].
  unfold IntMap_set. rewrite Nat.eqb_sym. destruct (Nat.eqb (id u) k); [|reflexivity].
  f_equal. lia.
Qed.

Lemma getUnitSymmetryGroupsIndexMap_loop_none (gs : list SymmetryGroup) (i0 : nat)
  (m : IntMap nat) :
  getUnitSymmetryGroupsIndexMap_loop gs i0 m = None <->
  exists g, In g gs /\ sg_units g = [].
Proof.
  revert i0 m. induction gs as [|g rest IH]; intros i0 m; simpl.
  - split; [discriminate|]. intros (g & [] & _).
  - destruct (sg_units g) as [|u0 us] eqn:E.
    + split; [intros _; exists g; auto|reflexivity].
    + rewrite IH. split.
      * intros (g' & Hin & Hg'). exists g'. auto.
      * intros (g' & [<-|Hin] & Hg'); [congruence|]. exists g'. auto.
Qed.

Lemma getUnitSymmetryGroupsIndexMap_loop_some (gs : list SymmetryGroup) (i0 : nat)
  (m : IntMap nat) :
  (forall g, In g gs -> sg_units g <> []) ->
  exists mp, getUnitSymmetryGroupsIndexMap_loop gs i0 m = Some mp /\
    forall k, mp k = match last_pos (List.map group_key gs) k with
                     | Some j => Some (i0 + j)
                     | None => m k
                     end.
Proof.
  revert i0 m. induction gs as [|g rest IH]; intros i0 m Hne; simpl.
  - exists m. split; reflexivity.
  - destruct (sg_units g) as [|u0 us] eqn:E.
    + exfalso. exact (Hne g (or_introl eq_refl) E).
    + assert (Hr : forall g', In g' rest -> sg_units g' <> [])
        by (intros g' Hg'; apply Hne; right; exact Hg').
      destruct (IH (S i0) (IntMap_set m (invariantId u0) i0) Hr) as (mp & Hmp & Hk).
      exists mp. split; [exact Hmp|]. intros k. rewrite Hk.
      destruct (last_pos (List.map group_key rest) k); [f_equal; lia|].
      unfold IntMap_set, group_key. rewrite E, Nat.eqb_sym.
      destruct (Nat.eqb (invariantId u0) k); [f_equal; lia|reflexivity].
Qed.

(** [getUnitIndexMap(units)] maps an id to the position of the last unit
    carrying it, and an id no unit carries to [undefined]; with distinct ids,
    every unit's id maps to its own position. *)
Theorem getUnitIndexMap_spec (units : list Unit) (k i : nat) :
  (getUnitIndexMap units k = Some i <->
   nth_error (List.map id units) i = Some k /\
   forall j, i < j -> nth_error (List.map id units) j <> Some k) /\
  (getUnitIndexMap units k = None <-> ~ In k (List.map id units)).
Proof.
  unfold getUnitIndexMap. rewrite getUnitIndexMap_loop_eq. split.
  - rewrite <- last_pos_some. destruct (last_pos (List.map id units) k); simpl.
    + split; congruence.
    + split; discriminate.
  - rewrite <- last_pos_none. destruct (last_pos (List.map id units) k); simpl.
    + split; discriminate.
    + split; reflexivity.
Qed.

(** [getUnitSymmetryGroupsIndexMap(symmetryGroups)] throws exactly when one
    of the groups has no units. *)
Theorem getUnitSymmetryGroupsIndexMap_throws (gs : list SymmetryGroup) :
  getUnitSymmetryGroupsIndexMap gs = None <-> exists g, In g gs /\ sg_units g = [].
Proof. apply getUnitSymmetryGroupsIndexMap_loop_none. Qed.

(** When every group has a unit, [getUnitSymmetryGroupsIndexMap] maps the
    invariant id of a group's first unit to the position of the last group
    filed under it, and any other id to [undefined]. *)
Theorem getUnitSymmetryGroupsIndexMap_spec (gs : list SymmetryGroup) :
  (forall g, In g gs -> sg_units g <> []) ->
  exists mp, getUnitSymmetryGroupsIndexMap gs = Some mp /\
    forall k i,
      (mp k = Some i <->
       nth_error (List.map group_key gs) i = Some k /\
       forall j, i < j -> nth_error (List.map group_key gs) j <> Some k) /\
      (mp k = None <-> ~ In k (List.map group_key gs)).
Proof.
  intros Hne. destruct (getUnitSymmetryGroupsIndexMap_loop_some gs 0 IntMap_empty Hne)
    as (mp & Hmp & Hk).
  exists mp. split; [exact Hmp|]. intros k i. rewrite Hk. split.
  - rewrite <- last_pos_some. destruct (last_pos (List.map group_key gs) k); simpl.
    + split; congruence.
    + split; discriminate.
  - rewrite <- last_pos_none. destruct (last_pos (List.map group_key gs) k); simpl.
    + split; discriminate.
    + split; reflexivity.
Qed.

(** ** Chain-operator groups *)

(** [areSameChainOperatorGroup] is an equivalence relation on units. *)
Theorem areSameChainOperatorGroup_equivalence :
  (forall a, areSameChainOperatorGroup a a = true) /\
  (forall a b, areSameChainOperatorGroup a b = areSameChainOperatorGroup b a) /\
  (forall a b c, areSameChainOperatorGroup a b = true ->
                 areSameChainOperatorGroup b c = true ->
                 areSameChainOperatorGroup a c = true).
Proof.
  unfold areSameChainOperatorGroup. split; [|split].
  - intros a. rewrite Nat.eqb_refl, String.eqb_refl. reflexivity.
  - intros a b. rewrite Nat.eqb_sym, String.eqb_sym. reflexivity.
  - intros a b c Hab Hbc.
    apply andb_prop in Hab as [H1 H2]. apply andb_prop in Hbc as [H3 H4].
    apply Nat.eqb_eq in H1, H3. apply String.eqb_eq in H2, H4.
    rewrite H1, H3, H2, H4, Nat.eqb_refl, String.eqb_refl. reflexivity.
Qed.

(** Remapping a unit and taking a child of it stay in its chain-operator
    group; a unit made by [applyOperator(id, op, dontCompose)] is in it
    exactly when [op] has the name of the unit's operator (composing keeps
    the name of the added operator). *)
Theorem chainOperatorGroup_derived {X : Externals} (u : Unit) (s : State) :
  (forall m, areSameChainOperatorGroup u (fst (remapModel u m s)) = true) /\
  (forall els, areSameChainOperatorGroup u (fst (getChild u els s)) = true) /\
  (forall i op dontCompose,
     areSameChainOperatorGroup u (fst (applyOperator u i op dontCompose s)) =
     String.eqb (op_name (operator (conformation u))) (op_name op)).
Proof.
  split; [|split].
  - intros m. unfold remapModel.
    destruct (kind u); cbv beta iota zeta; unfold bind, load, alloc, new_unit, fresh_object, ret; simpl;
      match goal with |- context [if ?c then _ else _] => destruct c end;
      unfold areSameChainOperatorGroup; simpl;
      rewrite Nat.eqb_refl, String.eqb_refl; reflexivity.
  - intros els. unfold getChild.
    destruct (Nat.eqb (List.length els) (List.length (elements u))); simpl;
      unfold areSameChainOperatorGroup; simpl;
      rewrite Nat.eqb_refl, String.eqb_refl; reflexivity.
  - intros i op dc. unfold applyOperator, new_unit, fresh_object, bind, ret.
    unfold areSameChainOperatorGroup; simpl. rewrite Nat.eqb_refl.
    destruct dc; reflexivity.
Qed.

(** ** Coordinate comparisons *)

Lemma js_strict_eq_self (v : jsval) : js_strict_eq v v = not_NaN v.
Proof.
  destruct v as [[q|b|]|]; simpl; try reflexivity.
  - apply Qeq_bool_refl.
  - apply Bool.eqb_reflx.
Qed.

Lemma js_strict_eq_NaN (v : jsval) : js_strict_eq (JNum NaN) v = false.
Proof. destruct v as [[]|]; reflexivity. Qed.

Lemma isSameConformation_loop_self (xs : list nat) (c : Conformation) :
  isSameConformation_loop xs c c = coords_not_NaN c xs.
Proof.
  induction xs as [|e xs IH]; [reflexivity|]. simpl. rewrite !js_strict_eq_self.
  destruct (not_NaN (at_index (cx c) e)), (not_NaN (at_index (cy c) e)),
           (not_NaN (at_index (cz c) e)); simpl; try reflexivity. exact IH.
Qed.

Lemma areAreConformationsEquivalent_loop_self (xs : list nat) (c : Conformation) :
  areAreConformationsEquivalent_loop xs xs c c = coords_not_NaN c xs.
Proof.
  induction xs as [|e xs IH]; [reflexivity|]. simpl. rewrite !js_strict_eq_self.
  destruct (not_NaN (at_index (cx c) e)), (not_NaN (at_index (cy c) e)),
           (not_NaN (at_index (cz c) e)); simpl; try reflexivity. exact IH.
Qed.

Lemma areAreConformationsEquivalent_loop_spec (xs ys : list nat) (ca cb : Conformation) :
  List.length xs = List.length ys ->
  (areAreConformationsEquivalent_loop xs ys ca cb = true <->
   forall i u v, nth_error xs i = Some u -> nth_error ys i = Some v ->
     js_strict_eq (at_index (cx ca) u) (at_index (cx cb) v) = true /\
     js_strict_eq (at_index (cy ca) u) (at_index (cy cb) v) = true /\
     js_strict_eq (at_index (cz ca) u) (at_index (cz cb) v) = true).
Proof.
  revert ys. induction xs as [|u xs IH]; intros ys Hl; simpl.
  - split; [|reflexivity]. intros _ [] ? ? H; discriminate H.
  - destruct ys as [|v ys]; [discriminate Hl|]. simpl in Hl. injection Hl as Hl. simpl.
    destruct (js_strict_eq (at_index (cx ca) u) (at_index (cx cb) v)) eqn:Ex,
             (js_strict_eq (at_index (cy ca) u) (at_index (cy cb) v)) eqn:Ey,
             (js_strict_eq (at_index (cz ca) u) (at_index (cz cb) v)) eqn:Ez; simpl;
      try (split; [discriminate|];
           intros H; destruct (H 0 u v eq_refl eq_refl) as (H1 & H2 & H3); congruence).
    rewrite (IH ys Hl). split.
    + intros H [|i] u' v' Hu Hv; simpl in Hu, Hv.
      * injection Hu as <-. injection Hv as <-. auto.
      * exact (H i u' v' Hu Hv).
    + intros H i u' v' Hu Hv. exact (H (S i) u' v' Hu Hv).
Qed.

(** [areAreConformationsEquivalent(a, b)] holds exactly when the two units
    have as many elements, [Mat4.areEqual] accepts their operator matrices at
    [1e-6], and at every position [i] the raw coordinates of [a.elements[i]]
    in [a]'s store are strictly equal ([===]) to those of [b.elements[i]] in
    [b]'s store; this holds for every implementation of [Mat4.areEqual]. *)
Theorem areAreConformationsEquivalent_spec (Mat4_areEqual : list Q -> list Q -> Q -> bool)
  (a b : Unit) :
  areAreConformationsEquivalent Mat4_areEqual a b = true <->
  List.length (elements a) = List.length (elements b) /\
  Mat4_areEqual (op_matrix (operator (conformation a)))
                (op_matrix (operator (conformation b))) (1 # 1000000) = true /\
  forall i u v, nth_error (elements a) i = Some u -> nth_error (elements b) i = Some v ->
    js_strict_eq (at_index (cx (coordinates (conformation a))) u)
                 (at_index (cx (coordinates (conformation b))) v) = true /\
    js_strict_eq (at_index (cy (coordinates (conformation a))) u)
                 (at_index (cy (coordinates (conformation b))) v) = true /\
    js_strict_eq (at_index (cz (coordinates (conformation a))) u)
                 (at_index (cz (coordinates (conformation b))) v) = true.
Proof.
  unfold areAreConformationsEquivalent.
  destruct (Nat.eqb_spec (List.length (elements a)) (List.length (elements b))) as [Hl|Hl];
    simpl.
  - destruct (Mat4_areEqual (op_matrix (operator (conformation a)))
                (op_matrix (operator (conformation b))) (1 # 1000000)); simpl.
    + rewrite (areAreConformationsEquivalent_loop_spec _ _ _ _ Hl). tauto.
    + split; [discriminate|]. intros (_ & H & _). discriminate H.
  - split; [discriminate|]. intros (H & _). contradiction.
Qed.

(** A unit is conformation-equivalent to itself exactly when
    [Mat4.areEqual] accepts its matrix against itself and no coordinate of
    its elements is NaN. *)
Theorem areAreConformationsEquivalent_self (Mat4_areEqual : list Q -> list Q -> Q -> bool)
  (a : Unit) :
  areAreConformationsEquivalent Mat4_areEqual a a =
  Mat4_areEqual (op_matrix (operator (conformation a)))
                (op_matrix (operator (conformation a))) (1 # 1000000)
  && coords_not_NaN (coordinates (conformation a)) (elements a).
Proof.
  unfold areAreConformationsEquivalent. rewrite Nat.eqb_refl. simpl.
  destruct (Mat4_areEqual _ _ _); simpl; [|reflexivity].
  apply areAreConformationsEquivalent_loop_self.
Qed.

(** [isSameConformation(u, m)] is false for every model [m] as soon as one
    coordinate of one of [u]'s elements is NaN in [u]'s coordinate store. *)
Theorem isSameConformation_NaN (u : Unit) (m : Model) (e : nat) :
  In e (elements u) ->
  at_index (cx (coordinates (conformation u))) e = JNum NaN \/
  at_index (cy (coordinates (conformation u))) e = JNum NaN \/
  at_index (cz (coordinates (conformation u))) e = JNum NaN ->
  isSameConformation u m = false.
Proof.
  intros He Hn. destruct (isSameConformation u m) eqn:E; [|reflexivity].
  unfold isSameConformation in E. rewrite isSameConformation_loop_spec in E.
  destruct (E e He) as (Hx & Hy & Hz).
  destruct Hn as [Hn|[Hn|Hn]]; rewrite Hn, js_strict_eq_NaN in *; discriminate.
Qed.

(** When [u] reads its coordinates from [m]'s atomic store,
    [isSameConformation(u, m)] holds exactly when none of those coordinates
    is NaN. *)
Theorem isSameConformation_own_store (u : Unit) (m : Model) :
  coordinates (conformation u) = atomicConformation m ->
  isSameConformation u m = coords_not_NaN (atomicConformation m) (elements u).
Proof.
  intros H. unfold isSameConformation. rewrite H. apply isSameConformation_loop_self.
Qed.

(** ** Units derived from a unit *)

(** A symmetry group whose first unit was made from [u] by [applyOperator]
    or [remapModel] compares invariant-equal to any group whose first unit
    is [u]. *)
Theorem derived_groups_invariant_equal {X : Externals} (u : Unit) (us vs : list Unit)
  (s : State) (ga gb : SymmetryGroup) :
  mkSymmetryGroup (u :: us) = Some ga ->
  ((exists i op dontCompose, mkSymmetryGroup (fst (applyOperator u i op dontCompose s) :: vs) = Some gb) \/
   (exists m, mkSymmetryGroup (fst (remapModel u m s) :: vs) = Some gb)) ->
  areInvariantElementsEqual ga gb = true.
Proof.
  intros Ha Hb. simpl in Ha. injection Ha as <-.
  assert (Hd : exists u', mkSymmetryGroup (u' :: vs) = Some gb /\
                          invariantId u' = invariantId u /\ elements u' = elements u).
  { destruct Hb as [(i & op & dc & Hb)|(m & Hb)]; eexists; split; try exact Hb.
    - unfold applyOperator, new_unit, fresh_object, bind, ret; simpl. split; reflexivity.
    - unfold remapModel. destruct (kind u); cbv beta iota zeta;
        unfold bind, load, alloc, new_unit, fresh_object, ret; simpl; split; reflexivity. }
  destruct Hd as (u' & Hb' & Hi & He). simpl in Hb'. injection Hb' as <-.
  unfold areInvariantElementsEqual, hashUnit, SortedArray_areEqual; simpl.
  rewrite Hi, He, Z.eqb_refl. apply nat_list_eqb_refl.
Qed.

(** ** The residue count and the 3D lookup *)

Lemma count_segments_length {X : Externals} (it : list Segment) (n : nat) :
  count_segments it n = n + List.length it.
Proof.
  revert n. induction it as [|x it IH]; intros n; simpl; [lia|]. rewrite IH. lia.
Qed.

(** A first read of [residueCount] counts the residue segments the unit's
    elements meet, stores that number in the bag and records one
    computation. *)
Theorem residueCount_counts_segments {X : Externals} (u : Unit) (s : State) :
  p_residueCount (view s (u_props u)) = None ->
  let '(n, s') := get_residueCount u s in
  n = List.length (transientSegments (model u) (elements u)) /\
  log s' = log s ++ [PResidueCount] /\
  p_residueCount (view s' (u_props u)) = Some n.
Proof.
  intros H. unfold get_residueCount, memo, bind, load, ret, record_computation, modify_props.
  simpl. rewrite H. simpl. rewrite count_segments_length. split; [reflexivity|].
  split; [reflexivity|]. unfold view at 1; simpl. rewrite Nat.eqb_refl. reflexivity.
Qed.


(** ** Remapping and creating units *)



Lemma create_bag {X : Externals} (i v c t : nat) (k : Kind) (m : Model)
  (op : SymmetryOperator) (els : list nat) (props : option Props) (s : State) :
  let '(u', s') := create i v c t k m op els props s in
  view s' (u_props u') = match props with Some p => p | None => emptyProps end /\
  kind u' = k.
Proof.
  unfold create, bind, alloc, new_unit, fresh_object, ret; simpl.
  unfold view; simpl. rewrite Nat.eqb_refl. split; reflexivity.
Qed.


(** A unit made by [Unit.create] with [props] answers every property present
    in [props] from it, with no computation, except that a coarse unit has
    no getter for the atomic-only properties and reads them as [undefined]
    even when [props] holds them. *)
Theorem create_reads_props {X : Externals} (i v c t : nat) (k : Kind) (m : Model)
  (op : SymmetryOperator) (els : list nat) (props : Props) (s : State) :
  let '(u', s') := create i v c t k m op els (Some props) s in
  forall p w, prop_of p props = Some w ->
    read p u' s' =
      (if atomic_only p && negb (kind_eqb k Atomic) then None else Some w, s').
Proof.
  destruct (create i v c t k m op els (Some props) s) as [u' s'] eqn:E.
  pose proof (create_bag i v c t k m op els (Some props) s) as H.
  rewrite E in H. destruct H as (Hv & Hk).
  intros p w Hp.
  destruct (atomic_only p && negb (kind_eqb k Atomic)) eqn:A.
  - apply andb_prop in A as [A1 A2].
    destruct p; try discriminate A1; destruct k; try discriminate A2;
      unfold read; cbv zeta; rewrite Hk; reflexivity.
  - apply read_cached; [rewrite Hv; exact Hp|].
    destruct p; try exact I; destruct k; try discriminate A; exact Hk.
Qed.

(** ** Reads on every kind of unit *)


(** ** Caches are never lost *)

(** No sequence of reads, [create], [getChild], [applyOperator] and
    [remapModel] calls removes or changes a value cached in an existing
    property bag. *)
Theorem cached_values_persist {X : Externals} (acts : list Action) (s : State)
  (q : nat) (p : PropName) (v : PropVal) :
  q < next s -> prop_of p (view s q) = Some v ->
  prop_of p (view (snd (run acts s)) q) = Some v.
Proof.
  intros Hq Hv. destruct (Grows_run acts s) as [_ B]. exact (B q Hq p v Hv).
Qed.

(** ** Instances of the properties above *)

Lemma getUnitIndexMap_spec_witness :
  getUnitIndexMap units_dup 1 = Some 2 /\
  ((getUnitIndexMap units_dup 1 = Some 2 <->
    nth_error (List.map id units_dup) 2 = Some 1 /\
    forall j, 2 < j -> nth_error (List.map id units_dup) j <> Some 1) /\
   (getUnitIndexMap units_dup 1 = None <-> ~ In 1 (List.map id units_dup))).
Proof. split; [reflexivity|exact (getUnitIndexMap_spec units_dup 1 2)]. Defined.

Lemma getUnitSymmetryGroupsIndexMap_throws_witness :
  getUnitSymmetryGroupsIndexMap [group_a; group_empty] = None /\
  exists g, In g [group_a; group_empty] /\ sg_units g = [].
Proof.
  assert (H : getUnitSymmetryGroupsIndexMap [group_a; group_empty] = None) by reflexivity.
  split; [exact H|]. exact (proj1 (getUnitSymmetryGroupsIndexMap_throws _) H).
Defined.

Lemma getUnitSymmetryGroupsIndexMap_spec_witness :
  (forall g, In g [group_a; group_b] -> sg_units g <> []) /\
  exists mp, getUnitSymmetryGroupsIndexMap [group_a; group_b] = Some mp /\
    forall k i,
      (mp k = Some i <->
       nth_error (List.map group_key [group_a; group_b]) i = Some k /\
       forall j, i < j -> nth_error (List.map group_key [group_a; group_b]) j <> Some k) /\
      (mp k = None <-> ~ In k (List.map group_key [group_a; group_b])).
Proof.
  assert (H : forall g, In g [group_a; group_b] -> sg_units g <> []).
  { intros g [<-|[<-|[]]]; simpl; discriminate. }
  split; [exact H|]. exact (getUnitSymmetryGroupsIndexMap_spec _ H).
Defined.

Lemma areSameChainOperatorGroup_equivalence_witness :
  areSameChainOperatorGroup u_cached u_fresh = true /\
  areSameChainOperatorGroup u_fresh u_indexed = true /\
  areSameChainOperatorGroup u_cached u_indexed = true.
Proof.
  assert (H1 : areSameChainOperatorGroup u_cached u_fresh = true) by reflexivity.
  assert (H2 : areSameChainOperatorGroup u_fresh u_indexed = true) by reflexivity.
  split; [exact H1|]. split; [exact H2|].
  exact (proj2 (proj2 areSameChainOperatorGroup_equivalence) _ _ _ H1 H2).
Defined.

Lemma areAreConformationsEquivalent_spec_witness :
  areAreConformationsEquivalent Mat4_areEqual_sample u_cached u_fresh = true /\
  List.length (elements u_cached) = List.length (elements u_fresh) /\
  Mat4_areEqual_sample (op_matrix (operator (conformation u_cached)))
                       (op_matrix (operator (conformation u_fresh))) (1 # 1000000) = true /\
  forall i u v, nth_error (elements u_cached) i = Some u ->
    nth_error (elements u_fresh) i = Some v ->
    js_strict_eq (at_index (cx (coordinates (conformation u_cached))) u)
                 (at_index (cx (coordinates (conformation u_fresh))) v) = true /\
    js_strict_eq (at_index (cy (coordinates (conformation u_cached))) u)
                 (at_index (cy (coordinates (conformation u_fresh))) v) = true /\
    js_strict_eq (at_index (cz (coordinates (conformation u_cached))) u)
                 (at_index (cz (coordinates (conformation u_fresh))) v) = true.
Proof.
  assert (H : areAreConformationsEquivalent Mat4_areEqual_sample u_cached u_fresh = true)
    by (vm_compute; reflexivity).
  split; [exact H|]. exact (proj1 (areAreConformationsEquivalent_spec _ _ _) H).
Defined.

Lemma areAreConformationsEquivalent_self_witness :
  areAreConformationsEquivalent Mat4_areEqual_sample u_nan u_nan = false /\
  areAreConformationsEquivalent Mat4_areEqual_sample u_nan u_nan =
  Mat4_areEqual_sample (op_matrix (operator (conformation u_nan)))
                       (op_matrix (operator (conformation u_nan))) (1 # 1000000)
  && coords_not_NaN (coordinates (conformation u_nan)) (elements u_nan).
Proof.
  split; [vm_compute; reflexivity|exact (areAreConformationsEquivalent_self _ u_nan)].
Defined.

Lemma isSameConformation_NaN_witness :
  In 0 (elements u_nan) /\
  (at_index (cx (coordinates (conformation u_nan))) 0 = JNum NaN \/
   at_index (cy (coordinates (conformation u_nan))) 0 = JNum NaN \/
   at_index (cz (coordinates (conformation u_nan))) 0 = JNum NaN) /\
  isSameConformation u_nan model_a = false.
Proof.
  assert (H1 : In 0 (elements u_nan)) by (simpl; auto).
  assert (H2 : at_index (cx (coordinates (conformation u_nan))) 0 = JNum NaN \/
               at_index (cy (coordinates (conformation u_nan))) 0 = JNum NaN \/
               at_index (cz (coordinates (conformation u_nan))) 0 = JNum NaN)
    by (left; reflexivity).
  split; [exact H1|]. split; [exact H2|].
  exact (isSameConformation_NaN u_nan model_a 0 H1 H2).
Defined.

Lemma isSameConformation_own_store_witness :
  coordinates (conformation u_cached) = atomicConformation model_a /\
  isSameConformation u_cached model_a = coords_not_NaN (atomicConformation model_a) (elements u_cached).
Proof.
  assert (H : coordinates (conformation u_cached) = atomicConformation model_a) by reflexivity.
  split; [exact H|exact (isSameConformation_own_store u_cached model_a H)].
Defined.

Lemma derived_groups_invariant_equal_witness :
  @mkSymmetryGroup sampleExternals [u_cached] = Some group_cached /\
  @mkSymmetryGroup sampleExternals
     [fst (@applyOperator sampleExternals u_cached 9 op_shift_x false state0)]
     = Some group_shifted /\
  areInvariantElementsEqual group_cached group_shifted = true.
Proof.
  assert (H1 : @mkSymmetryGroup sampleExternals [u_cached] = Some group_cached) by reflexivity.
  assert (H2 : @mkSymmetryGroup sampleExternals
                 [fst (@applyOperator sampleExternals u_cached 9 op_shift_x false state0)]
               = Some group_shifted) by reflexivity.
  split; [exact H1|]. split; [exact H2|].
  apply (derived_groups_invariant_equal u_cached [] [] state0 group_cached group_shifted H1).
  left. exists 9, op_shift_x, false. exact H2.
Defined.

Lemma residueCount_counts_segments_witness :
  p_residueCount (view state0 (u_props u_fresh)) = None /\
  let '(n, s') := @get_residueCount sampleExternals u_fresh state0 in
  n = List.length (@transientSegments sampleExternals (model u_fresh) (elements u_fresh)) /\
  log s' = log state0 ++ [PResidueCount] /\
  p_residueCount (view s' (u_props u_fresh)) = Some n.
Proof.
  assert (H : p_residueCount (@view sampleExternals state0 (u_props u_fresh)) = None)
    by reflexivity.
  split; [exact H|exact (residueCount_counts_segments u_fresh state0 H)].
Defined.





Lemma create_reads_props_witness :
  let '(u', s') := @create sampleExternals 7 0 0 0 Spheres model_a op_identity [0; 1]
                     (Some props_cached) state0 in
  read PBonds u' s' = (None, s') /\ read PBoundary u' s' = (Some (@VBoundary sampleExternals 3), s').
Proof.
  pose proof (create_reads_props 7 0 0 0 Spheres model_a op_identity [0; 1] props_cached state0)
    as H.
  destruct (@create sampleExternals 7 0 0 0 Spheres model_a op_identity [0; 1]
              (Some props_cached) state0) as [u' s'].
  split; [exact (H PBonds _ eq_refl)|exact (H PBoundary _ eq_refl)].
Defined.


Lemma cached_values_persist_witness :
  0 < next state0 /\
  prop_of PBoundary (view state0 0) = Some (@VBoundary sampleExternals 3) /\
  prop_of PBoundary (view (snd (run later_actions state0)) 0)
    = Some (@VBoundary sampleExternals 3).
Proof.
  assert (H1 : 0 < next state0) by (simpl; lia).
  assert (H2 : prop_of PBoundary (@view sampleExternals state0 0)
               = Some (@VBoundary sampleExternals 3)) by reflexivity.
  split; [exact H1|]. split; [exact H2|].
  exact (cached_values_persist later_actions state0 0 PBoundary _ H1 H2).
Defined.
